(** * Music recommendation service: embedding of [recommendations_service.py]

    The service keeps four tables in memory (catalog, similarity pairs,
    personal recommendations, popularity ranking), each of which may be
    absent, and answers three HTTP queries from them.  The tables are
    pandas data frames in the source; here a frame is the list of its rows
    in table order and an absent frame ([None] in the source) is [None].

    Python integers are [Z].  Python floats and the cells of float64
    columns are the IEEE 754 binary64 values of [SpecFloat], with their
    infinities and NaN; products, quotients and comparisons are the IEEE
    ones.
    The frames have the columns the service reads: the catalog
    [track_id], [track_name], [artist_names] and [genre_names]; the
    similarity table [track_id], [similar_track_id] (int64) and
    [similarity_score] (float64); the personal table [user_id], [track_id]
    (int64) and, when it has one, [score] (float64); the popularity table
    [track_id] and, when it has one, [users] (int64). *)

From Stdlib Require Import ZArith SpecFloat PrimFloat FloatOps.
From Stdlib Require Import Ascii String.
From stdpp Require Import base decidable option list gmap sets sorting.

Local Open Scope Z_scope.

(** ** Python sequence operations *)

(** The position a slice bound [n] denotes in a sequence [l]: a negative
    bound counts from the end, and both ends are clamped. *)
Definition slice_bound {A} (n : Z) (l : list A) : nat :=
  if bool_decide (0 ≤ n) then Z.to_nat n
  else Z.to_nat (Z.max 0 (Z.of_nat (length l) + n)).

(** [l[:n]], also pandas' [df.head(n)] (which is [df.iloc[:n]]). *)
Definition slice_to {A} (n : Z) (l : list A) : list A :=
  take (slice_bound n l) l.

(** [l[n:]]. *)
Definition slice_from {A} (n : Z) (l : list A) : list A :=
  drop (slice_bound n l) l.

(** [len(l)] as a Python integer. *)
Definition len {A} (l : list A) : Z := Z.of_nat (length l).

(** ** Python floats *)

Module Float.

Definition prec : Z := 53.
Definition emax : Z := 1024.

(** The literal [0.7]: the binary64 value nearest to 7/10. *)
Definition lit_0_7 : spec_float := S754_finite false 6305039478318694 (-53).

(** The literals [0.5] and [0.1]. *)
Definition lit_0_5 : spec_float := S754_finite false 4503599627370496 (-53).
Definition lit_0_1 : spec_float := S754_finite false 7205759403792794 (-56).

(** [float(n)] for a Python integer: the nearest binary64 value, ties to
    even; [None] stands for the [OverflowError] Python raises when [n] is
    too large. *)
Definition of_int (n : Z) : option spec_float :=
  match binary_normalize prec emax n 0 false with
  | S754_infinity _ => None
  | S754_nan => None
  | f => Some f
  end.

Definition mul (x y : spec_float) : spec_float := SFmul prec emax x y.

(** [int(x)]: truncation toward zero; [None] stands for the error raised
    on an infinity or a NaN. *)
Definition to_int (x : spec_float) : option Z :=
  match x with
  | S754_zero _ => Some 0
  | S754_finite s m e =>
      let a := Z.shiftl (Z.pos m) e in
      Some (if s then - a else a)
  | S754_infinity _ => None
  | S754_nan => None
  end.

(** The float64 that a cell of an int64 column becomes, in [float(cell)]
    and when pandas puts the cell into a float64 array: the nearest
    binary64 value, ties to even.  No int64 is out of its range. *)
Definition of_int64 (n : Z) : spec_float :=
  binary_normalize prec emax n 0 false.

Definition div (x y : spec_float) : spec_float := SFdiv prec emax x y.

(** The value of a decimal literal with the digits of [n / d], as [0.95]
    for [lit 95 100]: the binary64 value nearest to the quotient. *)
Definition lit (n d : Z) : spec_float := div (of_int64 n) (of_int64 d).

(** [x < y], [x <= y] and [x == y]; each is false when [x] or [y] is
    NaN. *)
Definition ltb (x y : spec_float) : bool := SFltb x y.
Definition leb (x y : spec_float) : bool := SFleb x y.
Definition eqb (x y : spec_float) : bool := SFeqb x y.

Definition is_nan (x : spec_float) : bool :=
  match x with
  | S754_nan => true
  | _ => false
  end.

(** Whether [x] stands strictly before [y] in the descending order of
    pandas, which puts NaN after every number. *)
Definition desc_before (x y : spec_float) : bool :=
  if is_nan y then negb (is_nan x) else ltb y x.

End Float.

(** ** Data model *)

(** A row of the catalog table [items_df].  The source keeps the artist and
    genre cells only when they are Python lists
    ([isinstance(row['artist_names'], list)]); a cell of another kind is
    [None] here. *)
Module Item.
Record t := mk {
  track_id : Z;
  track_name : string;
  artist_names : option (list string);
  genre_names : option (list string)
}.
End Item.

(** A row of [similar_df]. *)
Module Similar.
Record t := mk {
  track_id : Z;
  similar_track_id : Z;
  similarity_score : spec_float
}.
End Similar.

(** A row of [personal_recs_df]; [score] is [None] when the row has no
    such field ([row.get('score', 0.5)]). *)
Module Personal.
Record t := mk {
  user_id : Z;
  track_id : Z;
  score : option spec_float
}.
End Personal.

(** A row of [top_popular_df]; [users] is [None] when the row has no such
    field ([row.get('users', 1)]). *)
Module Popular.
Record t := mk {
  track_id : Z;
  users : option Z
}.
End Popular.

Module TrackInfo.
Record t := mk {
  track_name : string;
  artist_names : list string;
  genre_names : list string
}.
End TrackInfo.

Module TrackRecommendation.
Record t := mk {
  track_id : Z;
  track_name : string;
  artists : list string;
  genres : list string;
  score : spec_float;
  type : string;
  source : string;
  based_on_track : option Z
}.
End TrackRecommendation.

Abbreviation Rec := TrackRecommendation.t.
Abbreviation track_id := TrackRecommendation.track_id.
Abbreviation score := TrackRecommendation.score.

Module HealthResponse.
Record t := mk {
  status : string;
  data_loaded : bool;
  timestamp : string
}.
End HealthResponse.

(** The [statistics] dictionary of a recommendation response. *)
Module Statistics.
Record t := mk {
  total_recommendations : Z;
  offline_count : Z;
  online_count : Z;
  user_id : Z;
  online_history_provided : bool
}.
End Statistics.

Module RecommendationResponse.
Record t := mk {
  user_id : Z;
  recommendations : list Rec;
  statistics : Statistics.t;
  timestamp : string
}.
End RecommendationResponse.

(** What the function of an endpoint yields: the value it returns, or the
    [HTTPException] it raises.  The encoding of the returned value as JSON
    by the framework comes after it and is not modelled. *)
Inductive http (A : Type) : Type :=
  | Ok (body : A)
  | HTTPException (status_code : Z) (detail : string).
Arguments Ok {A} body.
Arguments HTTPException {A} status_code detail.

(** The state of [RecommendationService]: the four tables. *)
Record RecommendationService := {
  items_df : option (list Item.t);
  similar_df : option (list Similar.t);
  personal_recs_df : option (list Personal.t);
  top_popular_df : option (list Popular.t)
}.

(** The track ids of a candidate list, in order. *)
Definition track_ids (recs : list Rec) : list Z := track_id <$> recs.


(** ** [RecommendationService.get_track_info] *)

(** [list(cell) if isinstance(cell, list) else []]. *)
Definition list_or_empty (cell : option (list string)) : list string :=
  default [] cell.

Definition get_track_info (self : RecommendationService) (tid : Z)
  : option TrackInfo.t :=
  match items_df self with
  | None => None
  | Some df =>
      match filter (λ row, Item.track_id row = tid) df with
      | [] => None
      | row :: _ =>
          Some (TrackInfo.mk (Item.track_name row)
                  (list_or_empty (Item.artist_names row))
                  (list_or_empty (Item.genre_names row)))
      end
  end.

(** ** Rows of a frame with a float column

    [iterrows] yields each row as a Series of one dtype.  For a frame whose
    columns are int64 and float64 that dtype is float64: an integer cell
    reaches the loop body as the nearest float, and [int(row[c])] is the
    integer this float denotes, which is not the cell for some integers
    above 2^53.  The rows of the similarity table are of this kind, and
    the rows of the personal table when it has a [score] column.  A frame
    whose columns are all int64, or which has a column of strings or
    lists, yields the integer cells unchanged. *)
Definition float64_row_int (cell : Z) : Z :=
  default cell (Float.to_int (Float.of_int64 cell)).

(** ** [sorted(..., key=..., reverse=True)]

    CPython's [list.sort], which [sorted] runs on a copy of the list, for a
    list of fewer than 64 elements (the online generator sorts at most 15).
    With [reverse=True] the list is reversed, sorted forward and reversed
    again.  The forward sort takes the run at the front of the list, which
    is ascending or strictly descending (a descending run is reversed), and
    puts the remaining elements into it one after the other by binary
    insertion.  Keys are only ever compared by [<], so the model also says
    what becomes of a list in which a key is NaN.  [count_run] is the one
    of CPython up to 3.12; later versions look for the run in another way,
    which makes no difference where [<] orders the keys. *)
Section ListSort.

Context {A : Type}.

(** [ISLT(x, y)]. *)
Variable lt : A → A → bool.

(** The binary search of [binarysort]: the place of [pivot] in the sorted
    slice [a[l:r]].  [fuel] bounds the number of halvings; [r - l] is
    enough of it. *)
Fixpoint bisect (fuel : nat) (a : list A) (pivot : A) (l r : nat) : nat :=
  match fuel with
  | O => l
  | S fuel' =>
      if bool_decide (l < r)%nat then
        let p := (l + (r - l) / 2)%nat in
        match a !! p with
        | Some x =>
            if lt pivot x then bisect fuel' a pivot l p
            else bisect fuel' a pivot (S p) r
        | None => l
        end
      else l
  end.

(** One iteration of the loop of [binarysort]: [pivot], the element after
    the sorted part [a], is moved to its place in it. *)
Definition binary_insert (a : list A) (pivot : A) : list A :=
  let l := bisect (length a) a pivot 0 (length a) in
  take l a ++ pivot :: drop l a.

Definition binarysort (run rest : list A) : list A :=
  foldl binary_insert run rest.

(** The rest of an ascending run after [prev], and what follows the run:
    the run ends before the first element smaller than its predecessor. *)
Fixpoint ascending_run (prev : A) (l : list A) : list A * list A :=
  match l with
  | [] => ([], [])
  | x :: l' =>
      if lt x prev then ([], l)
      else let '(run, rest) := ascending_run x l' in (x :: run, rest)
  end.

(** The same for a strictly descending run: it ends before the first
    element that is not smaller than its predecessor. *)
Fixpoint descending_run (prev : A) (l : list A) : list A * list A :=
  match l with
  | [] => ([], [])
  | x :: l' =>
      if lt x prev
      then let '(run, rest) := descending_run x l' in (x :: run, rest)
      else ([], l)
  end.

(** [count_run], with the reversal of a descending run: the run at the
    front of the list in ascending order, and the rest of the list. *)
Definition count_run (l : list A) : list A * list A :=
  match l with
  | [] => ([], [])
  | [x] => ([x], [])
  | x :: (y :: _) as l' =>
      if lt y x
      then let '(run, rest) := descending_run x l' in
           (reverse (x :: run), rest)
      else let '(run, rest) := ascending_run x l' in (x :: run, rest)
  end.

(** The forward sort. *)
Definition list_sort (l : list A) : list A :=
  let '(run, rest) := count_run l in binarysort run rest.

(** No element is smaller than one that stands before it. *)
Definition ascending (l : list A) : Prop :=
  StronglySorted (λ a b, lt b a = false) l.

End ListSort.

Definition sorted_reverse {A} (key : A → spec_float) (l : list A) : list A :=
  reverse (list_sort (λ x y, Float.ltb (key x) (key y)) (reverse l)).

(** ** [sort_values(..., ascending=False)]

    pandas puts the rows whose key is NaN last, in table order, and the
    other rows before them by decreasing key.  The order of rows of equal
    key is left to the sorting routine, numpy's quicksort, which promises
    none; here they keep their table order. *)
Fixpoint insert_desc {A} (key : A → spec_float) (x : A) (l : list A)
  : list A :=
  match l with
  | [] => [x]
  | y :: l' =>
      if Float.leb (key y) (key x) then x :: y :: l'
      else y :: insert_desc key x l'
  end.

Definition sort_values_descending {A} (key : A → spec_float) (l : list A)
  : list A :=
  foldr (insert_desc key) [] (filter (λ x, Float.is_nan (key x) = false) l)
  ++ filter (λ x, Float.is_nan (key x) = true) l.

(** ** [RecommendationService.get_offline_recommendations] *)

(** [any(rec.track_id == tid for rec in recommendations)]. *)
Definition any_track_id (tid : Z) (recommendations : list Rec) : bool :=
  existsb (λ rec, track_id rec =? tid) recommendations.

(** [int(row['track_id'])] for a row of the personal table that
    [iterrows] yields: a row with a [score] is a row of floats. *)
Definition personal_row_track_id (row : Personal.t) : Z :=
  match Personal.score row with
  | Some _ => float64_row_int (Personal.track_id row)
  | None => Personal.track_id row
  end.

Definition personal_candidate (row : Personal.t) (track_info : TrackInfo.t)
  : Rec :=
  TrackRecommendation.mk (personal_row_track_id row)
    (TrackInfo.track_name track_info)
    (TrackInfo.artist_names track_info)
    (TrackInfo.genre_names track_info)
    (default Float.lit_0_5 (Personal.score row))
    "personal_als" "offline" None.

(** The score is [float(row.get('users', 1))]: the float nearest to the
    count. *)
Definition popular_candidate (row : Popular.t) (track_info : TrackInfo.t)
  : Rec :=
  TrackRecommendation.mk (Popular.track_id row)
    (TrackInfo.track_name track_info)
    (TrackInfo.artist_names track_info)
    (TrackInfo.genre_names track_info)
    (Float.of_int64 (default 1 (Popular.users row)))
    "top_popular" "offline" None.

Definition random_candidate (row : Item.t) : Rec :=
  TrackRecommendation.mk (Item.track_id row)
    (Item.track_name row)
    (list_or_empty (Item.artist_names row))
    (list_or_empty (Item.genre_names row))
    Float.lit_0_1
    "random" "offline" None.

(** The bodies of the three [for] loops: each takes the list accumulated
    so far and one row and gives the list after the iteration. *)
Definition personal_step (self : RecommendationService)
    (recommendations : list Rec) (row : Personal.t) : list Rec :=
  match get_track_info self (personal_row_track_id row) with
  | Some track_info => recommendations ++ [personal_candidate row track_info]
  | None => recommendations
  end.

Definition popular_step (self : RecommendationService)
    (recommendations : list Rec) (row : Popular.t) : list Rec :=
  match get_track_info self (Popular.track_id row) with
  | Some track_info =>
      if negb (any_track_id (Popular.track_id row) recommendations)
      then recommendations ++ [popular_candidate row track_info]
      else recommendations
  | None => recommendations
  end.

Definition random_step (recommendations : list Rec) (row : Item.t)
  : list Rec :=
  if negb (any_track_id (Item.track_id row) recommendations)
  then recommendations ++ [random_candidate row]
  else recommendations.

Section Offline.

(** [items_df.sample(n)] draws [n] rows at random; the draw is an input of
    the model, and nothing is assumed about it. *)
Variable sample : Z → list Item.t → list Item.t.

Definition personal_stage (self : RecommendationService) (user_id limit : Z)
    (recommendations : list Rec) : list Rec :=
  match personal_recs_df self with
  | Some df =>
      let user_recs :=
        slice_to limit (filter (λ row, Personal.user_id row = user_id) df) in
      foldl (personal_step self) recommendations user_recs
  | None => recommendations
  end.

Definition popular_stage (self : RecommendationService) (limit : Z)
    (recommendations : list Rec) : list Rec :=
  match top_popular_df self with
  | Some df =>
      if bool_decide (len recommendations < limit) then
        let remaining := limit - len recommendations in
        foldl (popular_step self) recommendations (slice_to remaining df)
      else recommendations
  | None => recommendations
  end.

Definition random_stage (self : RecommendationService) (limit : Z)
    (recommendations : list Rec) : list Rec :=
  match items_df self with
  | Some df =>
      if bool_decide (len recommendations < limit) then
        let remaining := limit - len recommendations in
        let random_tracks := sample (Z.min remaining (len df)) df in
        foldl random_step recommendations random_tracks
      else recommendations
  | None => recommendations
  end.

Definition get_offline_recommendations (self : RecommendationService)
    (user_id limit : Z) : list Rec :=
  let recommendations := [] in
  let recommendations := personal_stage self user_id limit recommendations in
  let recommendations := popular_stage self limit recommendations in
  let recommendations := random_stage self limit recommendations in
  slice_to limit recommendations.

End Offline.

(** ** [RecommendationService.get_online_recommendations] *)

(** [int(similar_row['similar_track_id'])] for a row of the similarity
    table that [iterrows] yields: a row of floats. *)
Definition similar_row_track_id (row : Similar.t) : Z :=
  float64_row_int (Similar.similar_track_id row).

Definition similar_candidate (seed : Z) (row : Similar.t)
    (track_info : TrackInfo.t) : Rec :=
  TrackRecommendation.mk (similar_row_track_id row)
    (TrackInfo.track_name track_info)
    (TrackInfo.artist_names track_info)
    (TrackInfo.genre_names track_info)
    (Similar.similarity_score row)
    "similar_to_history" "online" (Some seed).

Definition similar_step (self : RecommendationService) (seed : Z)
    (recommendations : list Rec) (similar_row : Similar.t) : list Rec :=
  match get_track_info self (similar_row_track_id similar_row) with
  | Some track_info =>
      recommendations ++ [similar_candidate seed similar_row track_info]
  | None => recommendations
  end.

(** One iteration of the loop over [recent_tracks]. *)
Definition history_step (self : RecommendationService)
    (df : list Similar.t) (recommendations : list Rec) (seed : Z)
  : list Rec :=
  let similar_tracks :=
    slice_to 3
      (sort_values_descending Similar.similarity_score
         (filter (λ row, Similar.track_id row = seed) df)) in
  foldl (similar_step self seed) recommendations similar_tracks.

(** One iteration of the loop that removes duplicates; the state is the
    pair of [seen] and [unique_recs]. *)
Definition unique_step (state : gset Z * list Rec) (rec : Rec)
  : gset Z * list Rec :=
  if bool_decide (track_id rec ∉ state.1)
  then ({[track_id rec]} ∪ state.1, state.2 ++ [rec])
  else state.

(** The candidates of the similarity lookups, in the order the loops
    produce them. *)
Definition online_candidates (self : RecommendationService)
    (df : list Similar.t) (user_history : list Z) : list Rec :=
  let recent_tracks := slice_from (-5) user_history in
  foldl (history_step self df) [] recent_tracks.

(** [unique_recs] once the loop over [recommendations] is over. *)
Definition unique_recs (recommendations : list Rec) : list Rec :=
  (foldl unique_step (∅, []) recommendations).2.

Definition get_online_recommendations (self : RecommendationService)
    (user_history : list Z) (limit : Z) : list Rec :=
  match user_history, similar_df self with
  | [], _ => []
  | _ :: _, None => []
  | _ :: _, Some df =>
      let recommendations := online_candidates self df user_history in
      slice_to limit (sorted_reverse score (unique_recs recommendations))
  end.

(** ** [RecommendationService.blend_recommendations] *)

(** [offline_limit = int(total_limit * 0.7)] and
    [online_limit = total_limit - offline_limit]; [None] when the
    conversion of [total_limit] to a float raises. *)
Definition blend_limits (total_limit : Z) : option (Z * Z) :=
  x ← Float.of_int total_limit;
  offline_limit ← Float.to_int (Float.mul x Float.lit_0_7);
  Some (offline_limit, total_limit - offline_limit).

(** [blended] after [blended.extend(offline_recs[:offline_limit])]. *)
Definition offline_head (offline_limit : Z) (offline_recs : list Rec)
  : list Rec :=
  [] ++ slice_to offline_limit offline_recs.

Definition online_step (offline_track_ids : gset Z) (blended : list Rec)
    (online_rec : Rec) : list Rec :=
  if bool_decide (track_id online_rec ∉ offline_track_ids)
  then blended ++ [online_rec]
  else blended.

(** [blended] after the loop over [online_recs[:online_limit]]. *)
Definition online_fill (offline_limit online_limit : Z)
    (offline_recs online_recs : list Rec) : list Rec :=
  let blended := offline_head offline_limit offline_recs in
  let offline_track_ids : gset Z := list_to_set (track_ids blended) in
  foldl (online_step offline_track_ids) blended
    (slice_to online_limit online_recs).

(** [blended] after the top-up from the rest of the offline list. *)
Definition offline_backfill (offline_limit : Z) (offline_recs : list Rec)
    (total_limit : Z) (blended : list Rec) : list Rec :=
  if bool_decide (len blended < total_limit) then
    let remaining := total_limit - len blended in
    let present : gset Z := list_to_set (track_ids blended) in
    let additional_offline :=
      filter (λ rec, track_id rec ∉ present)
        (slice_from offline_limit offline_recs) in
    blended ++ slice_to remaining additional_offline
  else blended.

(** The body of [blend_recommendations] once the two limits are known. *)
Definition blend_with (offline_limit online_limit : Z)
    (offline_recs online_recs : list Rec) (total_limit : Z) : list Rec :=
  let blended :=
    online_fill offline_limit online_limit offline_recs online_recs in
  let blended :=
    offline_backfill offline_limit offline_recs total_limit blended in
  slice_to total_limit blended.

Definition blend_recommendations (offline_recs online_recs : list Rec)
    (total_limit : Z) : option (list Rec) :=
  limits ← blend_limits total_limit;
  Some (blend_with limits.1 limits.2 offline_recs online_recs total_limit).

(** ** Parsing of the [online_history] query parameter *)

(** [str.isspace] on an ASCII character. *)
Definition is_space (c : ascii) : bool :=
  let n := N_of_ascii c in
  ((9 <=? n) && (n <=? 13) || (28 <=? n) && (n <=? 31) || (n =? 32))%N.

Fixpoint lstrip (s : string) : string :=
  match s with
  | EmptyString => EmptyString
  | String c s' => if is_space c then lstrip s' else s
  end.

Fixpoint rstrip (s : string) : string :=
  match s with
  | EmptyString => EmptyString
  | String c s' =>
      match rstrip s' with
      | EmptyString => if is_space c then EmptyString else String c EmptyString
      | r => String c r
      end
  end.

(** [s.strip()]. *)
Definition strip (s : string) : string := rstrip (lstrip s).

(** [s.split(sep)] for a one-character separator. *)
Fixpoint split (sep : ascii) (s : string) : list string :=
  match s with
  | EmptyString => [EmptyString]
  | String c s' =>
      if Ascii.eqb c sep then EmptyString :: split sep s'
      else
        match split sep s' with
        | [] => [String c EmptyString]
        | w :: ws => String c w :: ws
        end
  end.

Definition digit_value (c : ascii) : option Z :=
  let n := Z.of_N (N_of_ascii c) in
  if bool_decide (48 ≤ n ≤ 57) then Some (n - 48) else None.

(** The digits of a decimal literal, most significant first; single
    underscores may separate digits.  [after_digit] tells whether the
    previous character was a digit. *)
Fixpoint int_digits (after_digit : bool) (acc : Z) (s : string) : option Z :=
  match s with
  | EmptyString => if after_digit then Some acc else None
  | String c s' =>
      if Ascii.eqb c "_" then
        if after_digit then int_digits false acc s' else None
      else
        match digit_value c with
        | Some d => int_digits true (10 * acc + d) s'
        | None => None
        end
  end.

(** [int(s)] on a string of ASCII characters; [None] stands for
    [ValueError].  Two things Python does are left out: it also takes the
    decimal digits and the white space of other scripts, and it raises
    [ValueError] for a number of more digits than the interpreter's limit
    (4300 unless configured otherwise). *)
Definition py_int (s : string) : option Z :=
  match strip s with
  | String "-" ds => Z.opp <$> int_digits false 0 ds
  | String "+" ds => int_digits false 0 ds
  | ds => int_digits false 0 ds
  end.

(** The truth value of [online_history] in [if online_history:]; [None] is
    the parameter left out of the query. *)
Definition truthy (online_history : option string) : bool :=
  match online_history with
  | None => false
  | Some EmptyString => false
  | Some (String _ _) => true
  end.

(** [[int(x.strip()) for x in online_history.split(',')]]; [None] stands
    for [ValueError]. *)
Definition parse_history (online_history : string) : option (list Z) :=
  mapM (λ x, py_int (strip x)) (split "," online_history).

(** [user_online_history] as the endpoint computes it: the empty list
    unless [online_history] is true, the parsed list otherwise. *)
Definition parse_online_history (online_history : option string)
  : option (list Z) :=
  if truthy online_history
  then parse_history (default EmptyString online_history)
  else Some [].

(** ** The endpoints *)

Module App.

(** [GET /health].  [now] is [datetime.now().isoformat()]. *)
Definition health (now : string) (service : RecommendationService)
  : HealthResponse.t :=
  let data_status :=
    forallb id
      [ bool_decide (items_df service ≠ None);
        bool_decide (personal_recs_df service ≠ None)
        || bool_decide (top_popular_df service ≠ None) ] in
  HealthResponse.mk (if data_status then "healthy" else "degraded")
    data_status now.

(** [GET /recommend/{user_id}].  The query parameter [limit] defaults to
    10 and [online_history] to [None] in the source. *)
Definition get_recommendations (sample : Z → list Item.t → list Item.t)
    (now : string) (service : RecommendationService)
    (user_id limit : Z) (online_history : option string)
  : http RecommendationResponse.t :=
  if bool_decide (limit ≤ 0 ∨ limit > 100) then
    HTTPException 400 "Limit must be between 1 and 100"
  else
    match parse_online_history online_history with
    | None => HTTPException 400 "Invalid online_history format"
    | Some user_online_history =>
        let offline_recs :=
          get_offline_recommendations sample service user_id limit in
        let online_recs :=
          get_online_recommendations service user_online_history limit in
        match blend_recommendations offline_recs online_recs limit with
        | None => HTTPException 500 "Internal server error"
        | Some final_recommendations =>
            let stats :=
              Statistics.mk (len final_recommendations) (len offline_recs)
                (len online_recs) user_id
                (bool_decide (len user_online_history > 0)) in
            Ok (RecommendationResponse.mk user_id final_recommendations
                  stats now)
        end
    end.

(** [GET /track/{track_id}]. *)
Definition get_track_info (service : RecommendationService) (tid : Z)
  : http TrackInfo.t :=
  match get_track_info service tid with
  | Some track_info => Ok track_info
  | None => HTTPException 404 "Track not found"
  end.

End App.

(** ** Notions used to state the properties *)

(** [a] occurs before [b] in [l]. *)
Definition before {A} (a b : A) (l : list A) : Prop :=
  ∃ l1 l2 l3, l = l1 ++ a :: l2 ++ b :: l3.

(** [s] is [d] put in ascending order, where two elements neither of which
    is smaller than the other stand as they do in [d]. *)
Definition stable_sorted {A} (lt : A → A → bool) (s d : list A) : Prop :=
  s ≡ₚ d ∧ ascending lt s
  ∧ ∀ a b, before a b s → lt a b = false → before a b d.

(** No score of the list is NaN. *)
Definition no_nan_score (recs : list Rec) : Prop :=
  Forall (λ rec, Float.is_nan (score rec) = false) recs.

(** Decreasing order of a key: every element has a key at least as large
    as the keys of the elements after it ([key b <= key a] in Python). *)
Definition decreasing {A} (key : A → spec_float) (l : list A) : Prop :=
  StronglySorted (λ a b, Float.leb (key b) (key a) = true) l.

(** The online candidates after the removal of duplicates, in the order in
    which the lookups met them: the list the final sort is applied to. *)
Definition encounter_order (self : RecommendationService)
    (user_history : list Z) : list Rec :=
  match similar_df self with
  | Some df => unique_recs (online_candidates self df user_history)
  | None => []
  end.

(** The online step of the blender as the specification words it: go
    through [online] in order and append each candidate whose track id is
    not yet in the result, until [quota] candidates are appended or
    [online] is exhausted. *)
Fixpoint spec_online_fill (quota : nat) (blended online : list Rec)
  : list Rec :=
  match online with
  | [] => blended
  | rec :: online' =>
      match quota with
      | O => blended
      | S quota' =>
          if bool_decide (track_id rec ∈ track_ids blended)
          then spec_online_fill quota blended online'
          else spec_online_fill quota' (blended ++ [rec]) online'
      end
  end.

(** ** Tables used in the examples *)

(** A draw that happens to take the first rows of the catalog. *)
Definition first_rows (n : Z) (df : list Item.t) : list Item.t :=
  slice_to n df.

Definition catalog_abc : list Item.t :=
  [ Item.mk 1 "A" (Some ["Ann"%string]) (Some ["rock"%string]);
    Item.mk 2 "B" (Some ["Bob"%string]) (Some ["pop"%string]);
    Item.mk 3 "C" None None ].

(** A catalog of three tracks, one personal row for user 5 and one
    popularity row. *)
Definition service_abc : RecommendationService :=
  {| items_df := Some catalog_abc;
     similar_df := None;
     personal_recs_df := Some [Personal.mk 5 1 (Some (Float.lit 9 10))];
     top_popular_df := Some [Popular.mk 2 (Some 100)] |}.

(** The same catalog; the personal table holds the row of user 5 and
    track 1 twice. *)
Definition service_repeated_row : RecommendationService :=
  {| items_df := Some catalog_abc;
     similar_df := None;
     personal_recs_df :=
       Some [ Personal.mk 5 1 (Some (Float.lit 9 10));
              Personal.mk 5 1 (Some (Float.lit 9 10)) ];
     top_popular_df := None |}.

(** The catalog holds the tracks 2^53 and 7.  The personal table has a
    [score] column and holds, for user 5, one row for each of the tracks
    2^53, 2^53 + 1 and 7. *)
Definition service_large_ids : RecommendationService :=
  {| items_df :=
       Some [ Item.mk 9007199254740992 "Even" None None;
              Item.mk 7 "Seven" None None ];
     similar_df := None;
     personal_recs_df :=
       Some [ Personal.mk 5 9007199254740992 (Some (Float.lit 9 10));
              Personal.mk 5 9007199254740993 (Some (Float.lit 8 10));
              Personal.mk 5 7 (Some (Float.lit 7 10)) ];
     top_popular_df := None |}.

(** Seed 10 has the similar tracks 20, with score 1.0, and 21, whose
    score is NaN; seed 11 has the similar track 22, with score 2.0. *)
Definition service_nan : RecommendationService :=
  {| items_df :=
       Some [ Item.mk 20 "T20" None None; Item.mk 21 "T21" None None;
              Item.mk 22 "T22" None None ];
     similar_df :=
       Some [ Similar.mk 10 20 (Float.lit 1 1); Similar.mk 10 21 S754_nan;
              Similar.mk 11 22 (Float.lit 2 1) ];
     personal_recs_df := None;
     top_popular_df := None |}.

(** Track 2^53 + 1 is similar to the seed 10; the catalog holds track
    2^53. *)
Definition service_similar_large : RecommendationService :=
  {| items_df := Some [Item.mk 9007199254740992 "Even" None None];
     similar_df := Some [Similar.mk 10 9007199254740993 (Float.lit 5 10)];
     personal_recs_df := None;
     top_popular_df := None |}.

(** The three other tables loaded, the catalog absent. *)
Definition service_no_catalog : RecommendationService :=
  {| items_df := None;
     similar_df := Some [Similar.mk 1 2 (Float.lit 8 10)];
     personal_recs_df := Some [Personal.mk 5 1 (Some (Float.lit 9 10))];
     top_popular_df := Some [Popular.mk 2 (Some 100)] |}.

(** Two seed tracks, 10 and 11, with three similar tracks each, all in the
    catalog; tracks 20 and 23 have the same similarity score. *)
Definition service_similar : RecommendationService :=
  {| items_df :=
       Some [ Item.mk 20 "T20" None None; Item.mk 21 "T21" None None;
              Item.mk 22 "T22" None None; Item.mk 23 "T23" None None;
              Item.mk 24 "T24" None None; Item.mk 25 "T25" None None ];
     similar_df :=
       Some [ Similar.mk 10 20 (Float.lit 8 10);
              Similar.mk 10 21 (Float.lit 95 100);
              Similar.mk 10 22 (Float.lit 5 10);
              Similar.mk 11 23 (Float.lit 8 10);
              Similar.mk 11 24 (Float.lit 6 10);
              Similar.mk 11 25 (Float.lit 4 10) ];
     personal_recs_df := None;
     top_popular_df := None |}.

(** The online candidate for track [tid] of [service_similar], found from
    the seed [seed] with score [s]. *)
Definition similar_to (seed tid : Z) (name : string) (s : spec_float)
  : Rec :=
  TrackRecommendation.mk tid name [] [] s "similar_to_history" "online"
    (Some seed).

(** An offline candidate with track id [tid]. *)
Definition candidate (tid : Z) : Rec :=
  TrackRecommendation.mk tid "track" [] [] Float.lit_0_5 "personal_als"
    "offline" None.

(** ** Loading the tables at startup *)

(** What [_read_parquet_from_s3] yields for each of the four keys that
    [load_data] reads: the frame, or [None] after any failure (the method
    catches every exception itself). *)
Record ObjectStore := {
  read_items : option (list Item.t);
  read_similar : option (list Similar.t);
  read_personal : option (list Personal.t);
  read_top_popular : option (list Popular.t)
}.

(** [RecommendationService.__init__]: no table is loaded. *)
Definition new_service : RecommendationService :=
  {| items_df := None; similar_df := None;
     personal_recs_df := None; top_popular_df := None |}.

(** [load_data]: the state after the call and the value returned.  The
    catalog is assigned first; when its read failed the method returns
    [False] at once, and the three other reads are not made. *)
Definition load_data (s3 : ObjectStore) (self : RecommendationService)
  : RecommendationService * bool :=
  let self :=
    {| items_df := read_items s3; similar_df := similar_df self;
       personal_recs_df := personal_recs_df self;
       top_popular_df := top_popular_df self |} in
  match items_df self with
  | Some _ =>
      let self :=
        {| items_df := items_df self; similar_df := read_similar s3;
           personal_recs_df := personal_recs_df self;
           top_popular_df := top_popular_df self |} in
      let self :=
        {| items_df := items_df self; similar_df := similar_df self;
           personal_recs_df := read_personal s3;
           top_popular_df := top_popular_df self |} in
      let self :=
        {| items_df := items_df self; similar_df := similar_df self;
           personal_recs_df := personal_recs_df self;
           top_popular_df := read_top_popular s3 |} in
      (self, true)
  | None => (self, false)
  end.

(** The service object after [startup_event]: a new service on which
    [load_data] has run (a failure is only logged). *)
Definition startup_event (s3 : ObjectStore) : RecommendationService :=
  (load_data s3 new_service).1.

(** ** More tables used in the examples *)

(** An object store where only the catalog and the popularity table can
    be read. *)
Definition store_catalog_popular : ObjectStore :=
  {| read_items := Some catalog_abc; read_similar := None;
     read_personal := None;
     read_top_popular := Some [Popular.mk 2 (Some 100)] |}.

(** An object store whose catalog cannot be read, the rest can. *)
Definition store_no_catalog : ObjectStore :=
  {| read_items := None;
     read_similar := Some [Similar.mk 1 2 (Float.lit 8 10)];
     read_personal := Some [Personal.mk 5 1 (Some (Float.lit 9 10))];
     read_top_popular := Some [Popular.mk 2 (Some 100)] |}.

(** ** More notions used to state the properties *)

(** The rows of the similarity table that one lookup of [seed] reads: the
    three best rows of the seed. *)
Definition similar_tracks (df : list Similar.t) (seed : Z)
  : list Similar.t :=
  slice_to 3
    (sort_values_descending Similar.similarity_score
       (filter (λ row, Similar.track_id row = seed) df)).

(** The rows of the similarity table for the same seed as [row] that a
    descending sort by score puts before [row] however it treats rows of
    equal score: those of strictly higher score and, when the score of
    [row] is NaN, those whose score is a number. *)
Definition better_rows (df : list Similar.t) (row : Similar.t)
  : list Similar.t :=
  filter (λ r, Similar.track_id r = Similar.track_id row
               ∧ Float.desc_before (Similar.similarity_score r)
                   (Similar.similarity_score row) = true) df.

(** [rec] is the online candidate made from the row [row] of the
    similarity table, with the metadata the catalog gives for its track;
    the track is the one read from the row of floats. *)
Definition made_from_similar (self : RecommendationService)
    (row : Similar.t) (rec : Rec) : Prop :=
  track_id rec = similar_row_track_id row
  ∧ score rec = Similar.similarity_score row
  ∧ TrackRecommendation.based_on_track rec = Some (Similar.track_id row)
  ∧ TrackRecommendation.type rec = "similar_to_history"%string
  ∧ TrackRecommendation.source rec = "online"%string
  ∧ get_track_info self (track_id rec)
    = Some (TrackInfo.mk (TrackRecommendation.track_name rec)
              (TrackRecommendation.artists rec)
              (TrackRecommendation.genres rec)).

(** ** The text of a history, as a client writes it *)

(** The character of a decimal digit. *)
Definition digit_char (d : Z) : ascii := ascii_of_N (Z.to_N (48 + d)).

(** The decimal digits of a number that is not negative, most significant
    first; [fuel] bounds their number. *)
Fixpoint str_nat (fuel : nat) (n : Z) : string :=
  match fuel with
  | O => EmptyString
  | S fuel' =>
      if n <? 10 then String (digit_char n) EmptyString
      else (str_nat fuel' (n / 10)
            ++ String (digit_char (n mod 10)) EmptyString)%string
  end.

(** [str(n)] for a Python integer. *)
Definition str_int (n : Z) : string :=
  if n <? 0 then String "-" (str_nat (S (Z.to_nat (Z.log2 (- n)))) (- n))
  else str_nat (S (Z.to_nat (Z.log2 n))) n.

(** [",".join(str(n) for n in l)]: the form in which the test client of
    the repository writes a history. *)
Fixpoint join_ints (l : list Z) : string :=
  match l with
  | [] => EmptyString
  | [n] => str_int n
  | n :: l' => (str_int n ++ String "," (join_ints l'))%string
  end.

(** Every character of [s] satisfies [p]. *)
Fixpoint all_chars (p : ascii → bool) (s : string) : bool :=
  match s with
  | EmptyString => true
  | String c s' => p c && all_chars p s'
  end.

(** Track 20 is similar to both seeds, 10 and 11, with a lower score for
    seed 10. *)
Definition service_shared : RecommendationService :=
  {| items_df := Some [Item.mk 20 "T20" None None];
     similar_df :=
       Some [ Similar.mk 10 20 (Float.lit 3 10);
              Similar.mk 11 20 (Float.lit 9 10) ];
     personal_recs_df := None;
     top_popular_df := None |}.

(** A character that is neither white space nor a comma. *)
Definition plain_char (c : ascii) : bool :=
  negb (is_space c) && negb (Ascii.eqb c ",").

(** * Properties *)

(** ** Slices *)

Lemma slice_to_nil {A} (n : Z) : slice_to n (@nil A) = [].
Proof. unfold slice_to. apply take_nil. Qed.

Lemma slice_to_from {A} (n : Z) (l : list A) :
  slice_to n l ++ slice_from n l = l.
Proof. unfold slice_to, slice_from. apply take_drop. Qed.

Lemma slice_to_prefix {A} (n : Z) (l : list A) : slice_to n l `prefix_of` l.
Proof. exists (slice_from n l). symmetry. apply slice_to_from. Qed.

Lemma slice_to_sublist {A} (n : Z) (l : list A) : slice_to n l `sublist_of` l.
Proof. unfold slice_to. apply sublist_take. Qed.

Lemma slice_from_sublist {A} (n : Z) (l : list A) :
  slice_from n l `sublist_of` l.
Proof. unfold slice_from. apply sublist_drop. Qed.

Lemma slice_to_len {A} (n : Z) (l : list A) : 0 ≤ n → len (slice_to n l) ≤ n.
Proof.
  intros Hn. unfold len, slice_to, slice_bound.
  rewrite bool_decide_eq_true_2 by done.
  rewrite length_take. lia.
Qed.

(** Track ids along a sublist. *)
Lemma track_ids_sublist (l k : list Rec) :
  l `sublist_of` k → track_ids l `sublist_of` track_ids k.
Proof. apply fmap_sublist. Qed.

Lemma track_ids_NoDup_sublist (l k : list Rec) :
  l `sublist_of` k → NoDup (track_ids k) → NoDup (track_ids l).
Proof. intros Hs Hk. eapply sublist_NoDup; [done | apply track_ids_sublist, Hs]. Qed.

Lemma track_ids_app (l k : list Rec) :
  track_ids (l ++ k) = track_ids l ++ track_ids k.
Proof. apply fmap_app. Qed.

Lemma any_track_id_spec (tid : Z) (recs : list Rec) :
  any_track_id tid recs = true ↔ tid ∈ track_ids recs.
Proof.
  unfold any_track_id, track_ids. rewrite existsb_exists, list_elem_of_fmap.
  split.
  - intros (rec & Hin & Heq). exists rec.
    apply Z.eqb_eq in Heq. by rewrite <- list_elem_of_In in Hin.
  - intros (rec & -> & Hin). exists rec.
    rewrite <- list_elem_of_In. split; [done | apply Z.eqb_refl].
Qed.

(** ** Catalog lookups *)

Lemma get_track_info_no_catalog (self : RecommendationService) (tid : Z) :
  items_df self = None → get_track_info self tid = None.
Proof. intros H. unfold get_track_info. by rewrite H. Qed.

Lemma get_track_info_missing (self : RecommendationService)
    (df : list Item.t) (tid : Z) :
  items_df self = Some df → tid ∉ Item.track_id <$> df →
  get_track_info self tid = None.
Proof.
  intros H Hnot. unfold get_track_info. rewrite H.
  destruct (filter _ df) as [|row rows] eqn:Hf; [done |].
  exfalso. apply Hnot.
  assert (row ∈ filter (λ row, Item.track_id row = tid) df) as Hin
    by (rewrite Hf; left).
  apply list_elem_of_filter in Hin as [<- Hin].
  by apply list_elem_of_fmap_2.
Qed.

(** ** Health *)

(** C8: the health response is "degraded" with [data_loaded = false]
    exactly when the catalog table is absent or both the personal and the
    popularity table are absent, and "healthy" with [data_loaded = true]
    exactly otherwise; so an absent catalog gives "degraded" whatever the
    other tables are. *)
Theorem health_degraded_iff (now : string) (service : RecommendationService) :
  let response := App.health now service in
  let missing :=
    items_df service = None
    ∨ (personal_recs_df service = None ∧ top_popular_df service = None) in
  (missing ↔
     HealthResponse.status response = "degraded"%string
     ∧ HealthResponse.data_loaded response = false)
  ∧ (¬ missing ↔
     HealthResponse.status response = "healthy"%string
     ∧ HealthResponse.data_loaded response = true).
Proof.
  unfold App.health.
  destruct (items_df service), (personal_recs_df service),
    (top_popular_df service); simpl;
    (split; (split; [intros H | intros [H1 H2]]));
    try discriminate; try (split; reflexivity);
    try (destruct H as [H | [H H']]; discriminate);
    try (intros [H | [H H']]; discriminate);
    try (left; reflexivity); try (right; split; reflexivity);
    try (exfalso; apply H; auto).
Qed.

(** ** Track lookup endpoint *)

(** C9: when the catalog is absent, [GET /track/{track_id}] raises the
    same 404 "Track not found" as it does, with a loaded catalog, for an
    id the catalog does not hold. *)
Theorem track_not_found_without_catalog
    (degraded loaded : RecommendationService) (df : list Item.t) (tid : Z) :
  items_df degraded = None →
  items_df loaded = Some df →
  tid ∉ Item.track_id <$> df →
  App.get_track_info degraded tid = HTTPException 404 "Track not found"%string
  ∧ App.get_track_info loaded tid = App.get_track_info degraded tid.
Proof.
  intros Hnone Hsome Hnot. unfold App.get_track_info.
  rewrite (get_track_info_no_catalog _ _ Hnone).
  by rewrite (get_track_info_missing _ _ _ Hsome Hnot).
Qed.

(** ** The offline generator without a catalog *)

Lemma foldl_personal_step_no_catalog (self : RecommendationService)
    (rows : list Personal.t) (recs : list Rec) :
  items_df self = None → foldl (personal_step self) recs rows = recs.
Proof.
  intros H. induction rows as [|row rows IH]; simpl; [done |].
  unfold personal_step at 2.
  by rewrite (get_track_info_no_catalog _ _ H).
Qed.

Lemma foldl_popular_step_no_catalog (self : RecommendationService)
    (rows : list Popular.t) (recs : list Rec) :
  items_df self = None → foldl (popular_step self) recs rows = recs.
Proof.
  intros H. induction rows as [|row rows IH]; simpl; [done |].
  unfold popular_step at 2.
  by rewrite (get_track_info_no_catalog _ _ H).
Qed.

(** C7: with no catalog table the offline generator returns the empty
    sequence, for every user and every limit: the personal and the
    popularity stage resolve no track and the random stage does not run. *)
Theorem offline_empty_without_catalog
    (sample : Z → list Item.t → list Item.t)
    (self : RecommendationService) (user_id limit : Z) :
  items_df self = None →
  get_offline_recommendations sample self user_id limit = [].
Proof.
  intros H. unfold get_offline_recommendations.
  assert (personal_stage self user_id limit [] = []) as ->.
  { unfold personal_stage. destruct (personal_recs_df self); [|done].
    by apply foldl_personal_step_no_catalog. }
  assert (popular_stage self limit [] = []) as ->.
  { unfold popular_stage. destruct (top_popular_df self); [|done].
    case_bool_decide; [|done]. by apply foldl_popular_step_no_catalog. }
  unfold random_stage. rewrite H. apply slice_to_nil.
Qed.

(** ** The blending quota *)

Lemma forallb_seqZ (P : Z → bool) (lo : Z) (n : Z) :
  forallb P (seqZ lo n) = true → ∀ k, lo ≤ k < lo + n → P k = true.
Proof.
  intros H k Hk. rewrite forallb_forall in H. apply H.
  apply list_elem_of_In, elem_of_seqZ. lia.
Qed.

(** On the limits the endpoint accepts the quota computation raises
    nothing, and apart from 90 it gives [floor(total_limit * 7 / 10)]. *)
Lemma blend_limits_valid (total_limit : Z) :
  1 ≤ total_limit ≤ 100 → is_Some (blend_limits total_limit).
Proof.
  intros H.
  pose (P := λ n, bool_decide (is_Some (blend_limits n))).
  assert (P total_limit = true) as HP.
  { apply (forallb_seqZ P 1 100); [by vm_compute | lia]. }
  by apply bool_decide_eq_true in HP.
Qed.

Lemma blend_limits_floor (total_limit : Z) :
  1 ≤ total_limit ≤ 100 → total_limit ≠ 90 →
  blend_limits total_limit
  = Some (total_limit * 7 / 10, total_limit - total_limit * 7 / 10).
Proof.
  intros H Hne.
  pose (P := λ n,
    bool_decide (n = 90 ∨ blend_limits n = Some (n * 7 / 10, n - n * 7 / 10))).
  assert (P total_limit = true) as HP.
  { apply (forallb_seqZ P 1 100); [by vm_compute | lia]. }
  apply bool_decide_eq_true in HP as [? | ?]; [lia | done].
Qed.

(** C2: the code at the input where it leaves the claim: for
    [total_limit = 90] the offline quota is 62 and the online quota 28,
    while [floor(90 * 7 / 10)] is 63.  The product [90 * 0.7] rounds to the
    float just below 63. *)
Theorem blend_limits_90 :
  blend_limits 90 = Some (62, 28)
  ∧ 90 * 7 / 10 = 63
  ∧ Float.mul (S754_finite false 90 0) Float.lit_0_7
    = S754_finite false 8866461766385663 (-47).
Proof. by vm_compute. Qed.

(** The constants of the float model are those of the machine: [0.7] is
    the binary64 literal, and the product at 90 is the hardware product. *)
Example lit_0_7_prim : Prim2SF 0x1.6666666666666p-1%float = Float.lit_0_7.
Proof. by vm_compute. Qed.

Example lit_0_5_prim : Prim2SF 0x1p-1%float = Float.lit_0_5.
Proof. by vm_compute. Qed.

Example lit_0_1_prim : Prim2SF 0x1.999999999999ap-4%float = Float.lit_0_1.
Proof. by vm_compute. Qed.

(** [Float.lit] gives the value of the literal: 0.9, 0.95 and 0.5. *)
Example lit_prim :
  Float.lit 9 10 = Prim2SF 0x1.ccccccccccccdp-1%float
  ∧ Float.lit 95 100 = Prim2SF 0x1.e666666666666p-1%float
  ∧ Float.lit 5 10 = Float.lit_0_5
  ∧ Float.lit 1 10 = Float.lit_0_1
  ∧ Float.lit 7 10 = Float.lit_0_7.
Proof. by vm_compute. Qed.

(** Integers up to 2^53 pass through a float unchanged; 2^53 + 1 comes
    out as 2^53, and 2^53 + 3 as 2^53 + 4. *)
Example float64_row_int_values :
  float64_row_int 7 = 7
  ∧ float64_row_int (-7) = -7
  ∧ float64_row_int 9007199254740992 = 9007199254740992
  ∧ float64_row_int 9007199254740993 = 9007199254740992
  ∧ float64_row_int 9007199254740995 = 9007199254740996
  ∧ Float.of_int64 9007199254740993
    = Prim2SF 0x1p53%float.
Proof. by vm_compute. Qed.

Example mul_90_prim :
  Prim2SF (90 * 0x1.6666666666666p-1)%float
  = Float.mul (S754_finite false 90 0) Float.lit_0_7.
Proof. by vm_compute. Qed.

(** ** Empty [online_history] *)

(** Were the empty string parsed, it would be malformed: [split] gives one
    empty field, which is no integer. *)
Example parse_history_empty : parse_history EmptyString = None.
Proof. reflexivity. Qed.

(** C10: an [online_history] given as the empty string is treated as no
    history: the parsed history is empty, the response is the one of a
    request without the parameter, and it is not the validation error of a
    malformed list. *)
Theorem empty_online_history_is_no_history
    (sample : Z → list Item.t → list Item.t) (now : string)
    (service : RecommendationService) (user_id limit : Z) :
  parse_online_history (Some EmptyString) = Some []
  ∧ App.get_recommendations sample now service user_id limit
      (Some EmptyString)
    = App.get_recommendations sample now service user_id limit None
  ∧ App.get_recommendations sample now service user_id limit
      (Some EmptyString)
    ≠ HTTPException 400 "Invalid online_history format"%string
  ∧ (1 ≤ limit ≤ 100 →
     ∃ response,
       App.get_recommendations sample now service user_id limit
         (Some EmptyString) = Ok response
       ∧ Statistics.online_history_provided
           (RecommendationResponse.statistics response) = false
       ∧ Statistics.online_count
           (RecommendationResponse.statistics response) = 0).
Proof.
  split; [reflexivity |]. split; [reflexivity |].
  unfold App.get_recommendations.
  change (parse_online_history (Some EmptyString)) with (Some (@nil Z)).
  cbv beta iota. split.
  - case_bool_decide; [discriminate |].
    destruct (blend_recommendations _ _ _); discriminate.
  - intros Hvalid. rewrite bool_decide_eq_false_2 by lia.
    destruct (blend_limits_valid limit Hvalid) as [limits Hlimits].
    unfold blend_recommendations. rewrite Hlimits. simpl.
    eexists. split; [reflexivity |]. split; reflexivity.
Qed.

(** ** The offline generator: length and distinct track ids *)

(** The personal stage appends, in order, candidates for some of the rows
    it reads. *)
Lemma foldl_personal_step_ids (self : RecommendationService)
    (rows : list Personal.t) (recs : list Rec) :
  ∃ ks, ks `sublist_of` (personal_row_track_id <$> rows)
        ∧ track_ids (foldl (personal_step self) recs rows)
          = track_ids recs ++ ks.
Proof.
  revert recs. induction rows as [|row rows IH]; intros recs; simpl.
  - exists []. split; [done | by rewrite app_nil_r].
  - destruct (IH (personal_step self recs row)) as (ks & Hks & ->).
    unfold personal_step.
    destruct (get_track_info self (personal_row_track_id row)) as [ti|].
    + exists (personal_row_track_id row :: ks).
      split; [by apply sublist_skip |].
      rewrite track_ids_app. simpl. by rewrite <- app_assoc.
    + exists ks. split; [by apply sublist_cons | done].
Qed.

Lemma popular_step_NoDup (self : RecommendationService) (recs : list Rec)
    (row : Popular.t) :
  NoDup (track_ids recs) → NoDup (track_ids (popular_step self recs row)).
Proof.
  intros Hnd. unfold popular_step.
  destruct (get_track_info self (Popular.track_id row)) as [ti|]; [|done].
  destruct (any_track_id (Popular.track_id row) recs) eqn:Hany; [done |].
  simpl. rewrite track_ids_app. apply NoDup_app. split; [done |].
  split; [| apply NoDup_singleton].
  intros tid Hin ->%list_elem_of_singleton. simpl in Hin.
  apply any_track_id_spec in Hin. congruence.
Qed.

Lemma random_step_NoDup (recs : list Rec) (row : Item.t) :
  NoDup (track_ids recs) → NoDup (track_ids (random_step recs row)).
Proof.
  intros Hnd. unfold random_step.
  destruct (any_track_id (Item.track_id row) recs) eqn:Hany; [done |].
  simpl. rewrite track_ids_app. apply NoDup_app. split; [done |].
  split; [| apply NoDup_singleton].
  intros tid Hin ->%list_elem_of_singleton. simpl in Hin.
  apply any_track_id_spec in Hin. congruence.
Qed.

(** A loop whose body keeps an invariant keeps it. *)
Lemma foldl_invariant {A B} (P : A → Prop) (f : A → B → A) (l : list B)
    (a : A) :
  (∀ a b, P a → P (f a b)) → P a → P (foldl f a l).
Proof.
  intros Hf. revert a. induction l as [|b l IH]; simpl; auto.
Qed.

Section OfflineProperties.

Variable sample : Z → list Item.t → list Item.t.

Lemma personal_stage_NoDup (self : RecommendationService)
    (user_id limit : Z) :
  (∀ df, personal_recs_df self = Some df →
     NoDup (personal_row_track_id
              <$> filter (λ row, Personal.user_id row = user_id) df)) →
  NoDup (track_ids (personal_stage self user_id limit [])).
Proof.
  intros Hkey. unfold personal_stage.
  destruct (personal_recs_df self) as [df|]; [| apply NoDup_nil_2].
  destruct (foldl_personal_step_ids self
              (slice_to limit
                 (filter (λ row, Personal.user_id row = user_id) df)) [])
    as (ks & Hks & ->).
  simpl. eapply sublist_NoDup; [by apply Hkey |].
  etrans; [apply Hks |]. apply fmap_sublist, slice_to_sublist.
Qed.

Lemma popular_stage_NoDup (self : RecommendationService) (limit : Z)
    (recs : list Rec) :
  NoDup (track_ids recs) → NoDup (track_ids (popular_stage self limit recs)).
Proof.
  intros Hnd. unfold popular_stage.
  destruct (top_popular_df self) as [df|]; [| done].
  case_bool_decide; [| done].
  apply (foldl_invariant (λ recs, NoDup (track_ids recs))); [| done].
  intros a b. apply popular_step_NoDup.
Qed.

Lemma random_stage_NoDup (self : RecommendationService) (limit : Z)
    (recs : list Rec) :
  NoDup (track_ids recs) →
  NoDup (track_ids (random_stage sample self limit recs)).
Proof.
  intros Hnd. unfold random_stage.
  destruct (items_df self) as [df|]; [| done].
  case_bool_decide; [| done].
  apply (foldl_invariant (λ recs, NoDup (track_ids recs))); [| done].
  intros a b. apply random_step_NoDup.
Qed.

(** When the tracks read from the rows of the personal table for the user
    are distinct, no two candidates of the output share a track id: the
    popularity and the random stage test for the tracks already given, the
    personal stage does not. *)
Lemma get_offline_recommendations_NoDup (self : RecommendationService)
    (user_id limit : Z) :
  (∀ df, personal_recs_df self = Some df →
     NoDup (personal_row_track_id
              <$> filter (λ row, Personal.user_id row = user_id) df)) →
  NoDup (track_ids (get_offline_recommendations sample self user_id limit)).
Proof.
  intros Hkey. unfold get_offline_recommendations.
  eapply track_ids_NoDup_sublist; [apply slice_to_sublist |].
  by apply random_stage_NoDup, popular_stage_NoDup, personal_stage_NoDup.
Qed.

End OfflineProperties.

(** ** Blending *)

(** The loop over the online slice appends exactly the candidates whose
    track id is not in [offline_track_ids]. *)
Lemma foldl_online_step (offline_track_ids : gset Z)
    (online : list Rec) (blended : list Rec) :
  foldl (online_step offline_track_ids) blended online
  = blended ++ filter (λ rec, track_id rec ∉ offline_track_ids) online.
Proof.
  revert blended. induction online as [|rec online IH]; intros blended; simpl.
  - by rewrite app_nil_r.
  - rewrite IH. unfold online_step. rewrite filter_cons.
    case_bool_decide as Hin; case_decide; try done.
    by rewrite <- app_assoc.
Qed.

Lemma online_fill_eq (offline_limit online_limit : Z)
    (offline_recs online_recs : list Rec) :
  let head := slice_to offline_limit offline_recs in
  online_fill offline_limit online_limit offline_recs online_recs
  = head ++ filter (λ rec, track_id rec ∉ track_ids head)
              (slice_to online_limit online_recs).
Proof.
  intros head. unfold online_fill, offline_head. simpl.
  rewrite foldl_online_step. f_equal.
  apply list_filter_iff. intros rec. fold head.
  by rewrite elem_of_list_to_set.
Qed.

(** C3, as the code has it: after the offline head, the blender reads only
    the first [online_limit] candidates of the online list and appends, in
    their order, those whose track id is not among the track ids of the
    offline head; the result of [blend_recommendations] is this list after
    the offline top-up and the final cut. *)
Theorem blend_online_fill (offline_recs online_recs : list Rec)
    (total_limit offline_limit online_limit : Z) :
  blend_limits total_limit = Some (offline_limit, online_limit) →
  let head := slice_to offline_limit offline_recs in
  let fill :=
    filter (λ rec, track_id rec ∉ track_ids head)
      (slice_to online_limit online_recs) in
  online_fill offline_limit online_limit offline_recs online_recs
  = head ++ fill
  ∧ blend_recommendations offline_recs online_recs total_limit
    = Some (slice_to total_limit
              (offline_backfill offline_limit offline_recs total_limit
                 (head ++ fill))).
Proof.
  intros Hlim head fill. split; [apply online_fill_eq |].
  unfold blend_recommendations. rewrite Hlim. simpl.
  unfold blend_with. by rewrite online_fill_eq.
Qed.

Lemma online_fill_NoDup (offline_limit online_limit : Z)
    (offline_recs online_recs : list Rec) :
  NoDup (track_ids offline_recs) → NoDup (track_ids online_recs) →
  NoDup (track_ids
           (online_fill offline_limit online_limit offline_recs online_recs)).
Proof.
  intros Hoff Hon. rewrite online_fill_eq. cbv zeta.
  rewrite track_ids_app. apply NoDup_app. split; [| split].
  - eapply track_ids_NoDup_sublist; [apply slice_to_sublist | done].
  - intros tid Hhead (rec & -> & Hin)%list_elem_of_fmap.
    by apply list_elem_of_filter in Hin as [Hnot _].
  - eapply track_ids_NoDup_sublist; [| exact Hon].
    etrans; [apply sublist_filter | apply slice_to_sublist].
Qed.

Lemma offline_backfill_NoDup (offline_limit : Z) (offline_recs : list Rec)
    (total_limit : Z) (blended : list Rec) :
  NoDup (track_ids offline_recs) → NoDup (track_ids blended) →
  NoDup (track_ids
           (offline_backfill offline_limit offline_recs total_limit blended)).
Proof.
  intros Hoff Hbl. unfold offline_backfill.
  case_bool_decide; [| done]. cbv zeta.
  rewrite track_ids_app. apply NoDup_app. split; [done | split].
  - intros tid Hin (rec & -> & Hrec)%list_elem_of_fmap.
    eapply elem_of_sublist in Hrec; [| apply slice_to_sublist].
    apply list_elem_of_filter in Hrec as [Hnot _].
    apply Hnot. by apply elem_of_list_to_set.
  - eapply track_ids_NoDup_sublist; [| exact Hoff].
    etrans; [apply slice_to_sublist |].
    etrans; [apply sublist_filter | apply slice_from_sublist].
Qed.

Lemma blend_with_NoDup (offline_limit online_limit : Z)
    (offline_recs online_recs : list Rec) (total_limit : Z) :
  NoDup (track_ids offline_recs) → NoDup (track_ids online_recs) →
  NoDup (track_ids
           (blend_with offline_limit online_limit offline_recs online_recs
              total_limit)).
Proof.
  intros Hoff Hon. unfold blend_with.
  eapply track_ids_NoDup_sublist; [apply slice_to_sublist |].
  by apply offline_backfill_NoDup, online_fill_NoDup.
Qed.

(** The blender adds no repetition of its own: from two lists neither of
    which holds a track id twice it makes a list that holds none twice. *)
Lemma blend_recommendations_NoDup (offline_recs online_recs : list Rec)
    (total_limit : Z) :
  NoDup (track_ids offline_recs) →
  NoDup (track_ids online_recs) →
  (∀ blended,
     blend_recommendations offline_recs online_recs total_limit
     = Some blended →
     NoDup (track_ids blended))
  ∧ (1 ≤ total_limit ≤ 100 →
     is_Some (blend_recommendations offline_recs online_recs total_limit)).
Proof.
  intros Hoff Hon. unfold blend_recommendations. split.
  - intros blended Hbl.
    destruct (blend_limits total_limit) as [[ol onl]|]; [| done].
    simpl in Hbl. injection Hbl as <-. by apply blend_with_NoDup.
  - intros Hvalid.
    destruct (blend_limits_valid total_limit Hvalid) as [limits ->].
    by eexists.
Qed.

(** ** The order of floats *)

Ltac compare_cases :=
  change (Pos.compare_cont Eq ?a ?b) with (Pos.compare a b) in *;
  repeat match goal with
  | |- context [(?a ?= ?b)%Z] => destruct (Z.compare_spec a b)
  | |- context [(?a ?= ?b)%positive] => destruct (Pos.compare_spec a b)
  | H : context [(?a ?= ?b)%Z] |- _ => destruct (Z.compare_spec a b)
  | H : context [(?a ?= ?b)%positive] |- _ => destruct (Pos.compare_spec a b)
  end.

Ltac float_cases x := destruct x as [[]|[]| |[] ? ?].

Lemma ltb_irrefl (x : spec_float) : Float.ltb x x = false.
Proof.
  unfold Float.ltb, SFltb. float_cases x; simpl; try done;
    compare_cases; simpl; try done; lia.
Qed.

Lemma ltb_asym (x y : spec_float) :
  Float.ltb x y = true → Float.ltb y x = false.
Proof.
  unfold Float.ltb, SFltb. float_cases x; float_cases y; simpl; try done;
    compare_cases; simpl; try done; lia.
Qed.

Lemma ltb_trans (x y z : spec_float) :
  Float.ltb x y = true → Float.ltb y z = true → Float.ltb x z = true.
Proof.
  unfold Float.ltb, SFltb.
  float_cases x; float_cases y; float_cases z; simpl; try done;
    compare_cases; simpl; try done; lia.
Qed.

(** When [y] is a number, [x] is not below [y] and [y] is not below [z],
    then [x] is not below [z]. *)
Lemma ltb_ntrans (x y z : spec_float) :
  Float.is_nan y = false →
  Float.ltb x y = false → Float.ltb y z = false → Float.ltb x z = false.
Proof.
  unfold Float.ltb, SFltb.
  float_cases x; float_cases y; float_cases z; simpl; try done;
    compare_cases; simpl; try done; lia.
Qed.

Lemma leb_ltb (x y : spec_float) :
  Float.leb x y = true → Float.ltb y x = false.
Proof.
  unfold Float.leb, Float.ltb, SFleb, SFltb.
  float_cases x; float_cases y; simpl; try done;
    compare_cases; simpl; try done; lia.
Qed.

Lemma ltb_leb (x y : spec_float) :
  Float.is_nan x = false → Float.is_nan y = false →
  Float.ltb x y = false → Float.leb y x = true.
Proof.
  unfold Float.leb, Float.ltb, SFleb, SFltb.
  float_cases x; float_cases y; simpl; try done;
    compare_cases; simpl; try done; lia.
Qed.

Lemma eqb_ltb (x y : spec_float) :
  Float.eqb x y = true → Float.ltb x y = false ∧ Float.ltb y x = false.
Proof.
  unfold Float.eqb, Float.ltb, SFeqb, SFltb.
  float_cases x; float_cases y; simpl; try done;
    compare_cases; simpl; try done; lia.
Qed.

Lemma ltb_nan_r (x y : spec_float) :
  Float.is_nan y = true → Float.ltb x y = false.
Proof. by destruct x, y. Qed.

Lemma desc_before_irrefl (x : spec_float) : Float.desc_before x x = false.
Proof.
  unfold Float.desc_before. destruct (Float.is_nan x); [done |].
  apply ltb_irrefl.
Qed.

(** ** Order of occurrence in a list *)

Section Before.

Context {A : Type}.

Lemma before_cons_inv (a b z : A) (l : list A) :
  before a b (z :: l) → (a = z ∧ b ∈ l) ∨ before a b l.
Proof.
  intros (l1 & l2 & l3 & Heq). destruct l1 as [|z' l1]; simpl in Heq.
  - injection Heq as -> ->. left. split; [done |].
    apply elem_of_app. right. left.
  - injection Heq as -> ->. right. by exists l1, l2, l3.
Qed.

Lemma before_cons (a b z : A) (l : list A) :
  before a b l → before a b (z :: l).
Proof. intros (l1 & l2 & l3 & ->). by exists (z :: l1), l2, l3. Qed.

Lemma before_head (a b : A) (l : list A) : b ∈ l → before a b (a :: l).
Proof.
  intros (l2 & l3 & ->)%list_elem_of_split. by exists [], l2, l3.
Qed.

Lemma before_app_l (a b : A) (l k : list A) :
  before a b l → before a b (l ++ k).
Proof.
  intros (l1 & l2 & l3 & ->). exists l1, l2, (l3 ++ k).
  rewrite <- app_assoc. simpl. by rewrite <- app_assoc.
Qed.

Lemma before_slice_to (a b : A) (n : Z) (l : list A) :
  before a b (slice_to n l) → before a b l.
Proof.
  intros H. rewrite <- (slice_to_from n l). by apply before_app_l.
Qed.

Lemma before_snoc (a b : A) (l : list A) : a ∈ l → before a b (l ++ [b]).
Proof.
  intros (l1 & l2 & ->)%list_elem_of_split. exists l1, l2, [].
  by rewrite <- app_assoc.
Qed.

Lemma before_reverse (a b : A) (l : list A) :
  before a b (reverse l) → before b a l.
Proof.
  intros (l1 & l2 & l3 & Heq).
  exists (reverse l3), (reverse l2), (reverse l1).
  rewrite <- (reverse_involutive l), Heq.
  rewrite reverse_app, reverse_cons, reverse_app, reverse_cons.
  by rewrite <- !app_assoc.
Qed.

(** Where two elements stood before a third was put between them. *)
Lemma before_insert (a b p : A) (l1 l2 : list A) :
  before a b (l1 ++ p :: l2) →
  before a b (l1 ++ l2) ∨ (a = p ∧ b ∈ l2) ∨ (b = p ∧ a ∈ l1).
Proof.
  induction l1 as [|z l1 IH]; simpl.
  - intros [[-> Hb] | H]%before_cons_inv; auto.
  - intros [[-> Hb] | H]%before_cons_inv.
    + apply elem_of_app in Hb as [Hb | Hb].
      * left. apply before_head, elem_of_app. by left.
      * apply elem_of_cons in Hb as [-> | Hb].
        -- right. right. split; [done | left].
        -- left. apply before_head, elem_of_app. by right.
    + destruct (IH H) as [H' | [[-> Hb] | [-> Ha]]].
      * left. by apply before_cons.
      * right. by left.
      * right. right. split; [done | by right].
Qed.

Lemma before_StronglySorted (R : relation A) (a b : A) (l : list A) :
  StronglySorted R l → before a b l → R a b.
Proof.
  intros Hsorted (l1 & l2 & l3 & ->).
  apply StronglySorted_app_1_r, StronglySorted_inv in Hsorted as [_ Hall].
  rewrite Forall_forall in Hall. apply Hall, elem_of_app. right. left.
Qed.

Lemma StronglySorted_reverse (R S : relation A) (l : list A) :
  (∀ a b, S a b → R b a) → StronglySorted S l → StronglySorted R (reverse l).
Proof.
  intros HSR. induction 1 as [|x l Hsorted IH Hall]; [constructor |].
  rewrite reverse_cons.
  apply StronglySorted_app_2; [| done | by repeat constructor].
  intros y x' Hy ->%list_elem_of_singleton. apply HSR.
  rewrite Forall_forall in Hall. apply Hall. by apply elem_of_reverse.
Qed.

Lemma StronglySorted_sublist (R : relation A) (l k : list A) :
  l `sublist_of` k → StronglySorted R k → StronglySorted R l.
Proof.
  intros Hsub. induction Hsub as [|x l k Hsub IH|x l k Hsub IH].
  - done.
  - intros Hk. apply StronglySorted_inv in Hk as [Hk Hall].
    constructor; [by apply IH |].
    rewrite Forall_forall in Hall |- *. intros y Hy.
    apply Hall. by eapply elem_of_sublist.
  - intros Hk. apply StronglySorted_inv in Hk as [Hk _]. by apply IH.
Qed.

End Before.

(** ** The list sort of Python *)

Section ListSortPermutation.

Context {A : Type} (lt : A → A → bool).

Lemma ascending_run_app (prev : A) (l : list A) :
  (ascending_run lt prev l).1 ++ (ascending_run lt prev l).2 = l.
Proof.
  revert prev. induction l as [|x l IH]; intros prev; simpl; [done |].
  destruct (lt x prev); [done |].
  specialize (IH x). destruct (ascending_run lt x l) as [run rest].
  simpl in *. by rewrite IH.
Qed.

Lemma descending_run_app (prev : A) (l : list A) :
  (descending_run lt prev l).1 ++ (descending_run lt prev l).2 = l.
Proof.
  revert prev. induction l as [|x l IH]; intros prev; simpl; [done |].
  destruct (lt x prev); [| done].
  specialize (IH x). destruct (descending_run lt x l) as [run rest].
  simpl in *. by rewrite IH.
Qed.

(** The search ends before its fuel does: more fuel than [r - l] changes
    nothing. *)
Lemma bisect_fuel (fuel fuel' : nat) (a : list A) (pivot : A) (l r : nat) :
  (r - l ≤ fuel)%nat → (fuel ≤ fuel')%nat →
  bisect lt fuel a pivot l r = bisect lt fuel' a pivot l r.
Proof.
  revert fuel' l r.
  induction fuel as [|fuel IH]; intros fuel' l r Hfuel Hle.
  - destruct fuel'; cbn [bisect]; [done |].
    by rewrite bool_decide_eq_false_2 by lia.
  - destruct fuel' as [|fuel']; [lia |]. cbn [bisect].
    case_bool_decide as Hlt; [| done].
    assert ((r - l) / 2 < r - l)%nat by (apply Nat.div_lt; lia).
    assert ((r - l) / 2 ≤ fuel)%nat.
    { transitivity ((S fuel) / 2)%nat.
      - apply Nat.Div0.div_le_mono. lia.
      - destruct fuel; [done |]. apply Nat.lt_succ_r, Nat.div_lt; lia. }
    destruct (a !! (l + (r - l) / 2)%nat) as [x|]; [| done].
    destruct (lt pivot x); apply IH; lia.
Qed.

Lemma binary_insert_Permutation (a : list A) (pivot : A) :
  binary_insert lt a pivot ≡ₚ a ++ [pivot].
Proof.
  unfold binary_insert.
  rewrite <- Permutation_middle, take_drop. by rewrite Permutation_cons_append.
Qed.

Lemma binarysort_Permutation (run rest : list A) :
  binarysort lt run rest ≡ₚ run ++ rest.
Proof.
  unfold binarysort. revert run.
  induction rest as [|x rest IH]; intros run; simpl.
  - by rewrite app_nil_r.
  - rewrite IH, binary_insert_Permutation. by rewrite <- app_assoc.
Qed.

Lemma count_run_Permutation (l : list A) :
  (count_run lt l).1 ++ (count_run lt l).2 ≡ₚ l.
Proof.
  destruct l as [|x [|y l]]; [done | done |].
  unfold count_run. destruct (lt y x).
  - pose proof (descending_run_app x (y :: l)) as H.
    destruct (descending_run lt x (y :: l)) as [run rest]. simpl in *.
    rewrite <- H. by rewrite reverse_Permutation.
  - pose proof (ascending_run_app x (y :: l)) as H.
    destruct (ascending_run lt x (y :: l)) as [run rest]. simpl in *.
    by rewrite <- H.
Qed.

(** Whatever the comparison answers, the sort only rearranges the list. *)
Lemma list_sort_Permutation (l : list A) : list_sort lt l ≡ₚ l.
Proof.
  unfold list_sort. pose proof (count_run_Permutation l) as H.
  destruct (count_run lt l) as [run rest]. simpl in H.
  by rewrite binarysort_Permutation.
Qed.

End ListSortPermutation.

(** On elements that [lt] orders (those that satisfy [P] below; for float
    keys, those whose key is not NaN) the sort gives the ascending order
    and is stable. *)
Section ListSortOrder.

Context {A : Type} (lt : A → A → bool) (P : A → Prop).

Hypothesis lt_asym : ∀ x y, lt x y = true → lt y x = false.
Hypothesis lt_trans :
  ∀ x y z, lt x y = true → lt y z = true → lt x z = true.
Hypothesis lt_ntrans :
  ∀ x y z, P y → lt x y = false → lt y z = false → lt x z = false.

Lemma bisect_spec (fuel : nat) (a : list A) (pivot : A) (l r : nat) :
  (r - l ≤ fuel)%nat → (l ≤ r ≤ length a)%nat →
  Forall P a → ascending lt a →
  Forall (λ x, lt pivot x = false) (take l a) →
  Forall (λ x, lt pivot x = true) (drop r a) →
  Forall (λ x, lt pivot x = false) (take (bisect lt fuel a pivot l r) a)
  ∧ Forall (λ x, lt pivot x = true) (drop (bisect lt fuel a pivot l r) a).
Proof.
  intros Hfuel Hlr HP Hsorted. revert l r Hfuel Hlr.
  induction fuel as [|fuel IH]; intros l r Hfuel Hlr Hl Hr; cbn [bisect].
  - assert (r = l) as -> by lia. done.
  - case_bool_decide as Hlt; [| by assert (r = l) as -> by lia].
    set (p := (l + (r - l) / 2)%nat).
    assert (l ≤ p < r)%nat as Hp.
    { assert ((r - l) / 2 < r - l)%nat by (apply Nat.div_lt; lia).
      unfold p. lia. }
    assert ((r - l) / 2 ≤ fuel)%nat as Hhalf.
    { transitivity ((S fuel) / 2)%nat.
      - apply Nat.Div0.div_le_mono. lia.
      - destruct fuel; [done |]. apply Nat.lt_succ_r, Nat.div_lt; lia. }
    destruct (lookup_lt_is_Some_2 a p) as [x Hx]; [lia |]. rewrite Hx.
    pose proof Hsorted as Hmid. unfold ascending in Hmid.
    rewrite <- (take_drop_middle a p x Hx) in Hmid.
    assert (P x) as HPx.
    { rewrite Forall_forall in HP. by eapply HP, list_elem_of_lookup_2. }
    destruct (lt pivot x) eqn:Hpx.
    + apply IH; [unfold p; lia | lia | done |].
      rewrite (drop_S a x p Hx). constructor; [done |].
      apply StronglySorted_app_1_r, StronglySorted_inv in Hmid as [_ Hall].
      rewrite Forall_forall in Hall |- *. intros y Hy.
      destruct (lt pivot y) eqn:Hpy; [done |].
      assert (P y) as HPy.
      { rewrite Forall_forall in HP. apply HP.
        eapply elem_of_sublist; [exact Hy | apply sublist_drop]. }
      rewrite (lt_ntrans pivot y x HPy Hpy (Hall y Hy)) in Hpx. done.
    + apply IH; [unfold p in *; lia | lia | | done].
      rewrite (take_S_r a p x Hx). apply Forall_app.
      split; [| by repeat constructor].
      rewrite Forall_forall. intros y Hy.
      apply (lt_ntrans pivot x y HPx Hpx).
      apply (StronglySorted_app_1_elem_of _ _ _ y x Hmid Hy). left.
Qed.

(** The element goes after all those it is not smaller than and before
    all those it is smaller than. *)
Lemma binary_insert_spec (a : list A) (pivot : A) :
  Forall P a → ascending lt a →
  ∃ i, binary_insert lt a pivot = take i a ++ pivot :: drop i a
       ∧ Forall (λ x, lt pivot x = false) (take i a)
       ∧ Forall (λ x, lt pivot x = true) (drop i a).
Proof.
  intros HP Hsorted. eexists. split; [reflexivity |].
  apply bisect_spec; try done; try lia.
  by rewrite drop_all.
Qed.

Lemma binary_insert_stable (s d : list A) (pivot : A) :
  Forall P d → stable_sorted lt s d →
  stable_sorted lt (binary_insert lt s pivot) (d ++ [pivot]).
Proof.
  intros HP (Hperm & Hsorted & Hstable).
  assert (Forall P s) as HPs by by rewrite Hperm.
  destruct (binary_insert_spec s pivot HPs Hsorted) as (i & Heq & Hle & Hgt).
  split; [| split].
  - by rewrite binary_insert_Permutation, Hperm.
  - rewrite Heq. unfold ascending in *.
    rewrite <- (take_drop i s) in Hsorted.
    apply StronglySorted_app_2.
    + intros x y Hx [-> | Hy]%elem_of_cons.
      * rewrite Forall_forall in Hle. by apply Hle.
      * by apply (StronglySorted_app_1_elem_of _ _ _ x y Hsorted).
    + by apply StronglySorted_app_1_l in Hsorted.
    + constructor; [by apply StronglySorted_app_1_r in Hsorted |].
      eapply Forall_impl; [exact Hgt |]. intros y Hy. by apply lt_asym.
  - intros a b Hbefore Hab. rewrite Heq in Hbefore.
    apply before_insert in Hbefore as [H | [[-> Hb] | [-> Ha]]].
    + rewrite take_drop in H. by apply before_app_l, Hstable.
    + rewrite Forall_forall in Hgt. rewrite (Hgt b Hb) in Hab. done.
    + apply before_snoc. rewrite <- Hperm.
      eapply elem_of_sublist; [exact Ha | apply sublist_take].
Qed.

Lemma binarysort_stable (s d rest : list A) :
  Forall P (d ++ rest) → stable_sorted lt s d →
  stable_sorted lt (binarysort lt s rest) (d ++ rest).
Proof.
  unfold binarysort. revert s d.
  induction rest as [|x rest IH]; intros s d HP Hs; simpl.
  - by rewrite app_nil_r.
  - rewrite (cons_middle x d rest), app_assoc in HP |- *.
    apply IH; [done |]. apply binary_insert_stable; [| done].
    apply Forall_app in HP as [HP _]. by apply Forall_app in HP as [HP _].
Qed.

Lemma ascending_run_sorted (prev : A) (l : list A) :
  Forall P l → ascending lt (prev :: (ascending_run lt prev l).1).
Proof.
  unfold ascending. intros HP. revert prev.
  induction HP as [|x l HPx HPl IH]; intros prev; simpl.
  - by repeat constructor.
  - destruct (lt x prev) eqn:Hx; simpl; [by repeat constructor |].
    specialize (IH x). destruct (ascending_run lt x l) as [run rest].
    simpl in *. constructor; [done |].
    apply StronglySorted_inv in IH as [_ Hall].
    constructor; [done |].
    eapply Forall_impl; [exact Hall |]. simpl. intros y Hy.
    by apply (lt_ntrans y x prev).
Qed.

Lemma descending_run_sorted (prev : A) (l : list A) :
  StronglySorted (λ a b, lt b a = true)
    (prev :: (descending_run lt prev l).1).
Proof.
  revert prev. induction l as [|x l IH]; intros prev; simpl.
  - by repeat constructor.
  - destruct (lt x prev) eqn:Hx; simpl; [| by repeat constructor].
    specialize (IH x). destruct (descending_run lt x l) as [run rest].
    simpl in *. constructor; [done |].
    apply StronglySorted_inv in IH as [_ Hall].
    constructor; [done |].
    eapply Forall_impl; [exact Hall |]. simpl. intros y Hy.
    by apply (lt_trans y x prev).
Qed.

Lemma count_run_stable (l : list A) :
  Forall P l →
  ∃ d, d ++ (count_run lt l).2 = l ∧ stable_sorted lt (count_run lt l).1 d.
Proof.
  intros HP. destruct l as [|x [|y l]].
  - exists []. split; [done |]. split; [done |]. split; [constructor | done].
  - exists [x]. split; [done |]. split; [done |].
    split; [by repeat constructor | done].
  - unfold count_run. destruct (lt y x) eqn:Hyx.
    + pose proof (descending_run_app lt x (y :: l)) as Happ.
      pose proof (descending_run_sorted x (y :: l)) as Hdesc.
      destruct (descending_run lt x (y :: l)) as [run rest].
      exists (x :: run). cbn [fst snd] in *. split; [by rewrite <- Happ |].
      split; [apply reverse_Permutation |]. split.
      * eapply StronglySorted_reverse; [| exact Hdesc].
        intros a b Hab. by apply lt_asym.
      * intros a b Hbefore%before_reverse Hab.
        pose proof (before_StronglySorted _ _ _ _ Hdesc Hbefore) as Hba.
        simpl in Hba. congruence.
    + pose proof (ascending_run_app lt x (y :: l)) as Happ.
      apply Forall_cons in HP as [_ HP].
      pose proof (ascending_run_sorted x (y :: l) HP) as Hasc.
      destruct (ascending_run lt x (y :: l)) as [run rest].
      exists (x :: run). cbn [fst snd] in *. split; [by rewrite <- Happ |].
      split; [done |]. split; [done | auto].
Qed.

Lemma list_sort_stable (l : list A) :
  Forall P l → stable_sorted lt (list_sort lt l) l.
Proof.
  intros HP. destruct (count_run_stable l HP) as (d & Hd & Hrun).
  unfold list_sort. destruct (count_run lt l) as [run rest].
  cbn [fst snd] in *. subst l. by apply binarysort_stable.
Qed.

End ListSortOrder.

(** ** [sorted] with [reverse=True] *)

Section SortedReverse.

Context {A : Type} (key : A → spec_float).

Lemma sorted_reverse_Permutation (l : list A) : sorted_reverse key l ≡ₚ l.
Proof.
  unfold sorted_reverse.
  by rewrite reverse_Permutation, list_sort_Permutation, reverse_Permutation.
Qed.

Lemma sorted_reverse_stable_sorted (l : list A) :
  Forall (λ x, Float.is_nan (key x) = false) l →
  stable_sorted (λ x y, Float.ltb (key x) (key y))
    (reverse (sorted_reverse key l)) (reverse l).
Proof.
  intros Hl. unfold sorted_reverse. rewrite reverse_involutive.
  apply (list_sort_stable _ (λ x, Float.is_nan (key x) = false)).
  - intros x y. apply ltb_asym.
  - intros x y z. apply ltb_trans.
  - intros x y z. apply ltb_ntrans.
  - by rewrite reverse_Permutation.
Qed.

(** When no key is NaN the result is in decreasing order of the key. *)
Lemma sorted_reverse_decreasing (l : list A) :
  Forall (λ x, Float.is_nan (key x) = false) l →
  decreasing key (sorted_reverse key l).
Proof.
  intros Hl.
  destruct (sorted_reverse_stable_sorted l Hl) as (Hperm & Hasc & _).
  assert (Forall (λ x, Float.is_nan (key x) = false)
            (reverse (sorted_reverse key l))) as Hall.
  { by rewrite Hperm, reverse_Permutation. }
  rewrite <- (reverse_involutive (sorted_reverse key l)).
  unfold decreasing.
  apply (StronglySorted_reverse _
           (λ a b, (Float.ltb (key b) (key a) = false
                    ∧ Float.is_nan (key a) = false)
                   ∧ Float.is_nan (key b) = false)).
  - intros a b [[Hba Ha] Hb]. by apply ltb_leb.
  - clear Hperm. unfold ascending in Hasc.
    induction Hasc as [|x s Hs IH Hx]; [constructor |].
    apply Forall_cons in Hall as [Hnx Hall].
    constructor; [by apply IH |].
    rewrite Forall_forall in Hx, Hall |- *. intros y Hy.
    split; [split; [by apply Hx | done] | by apply Hall].
Qed.

(** When no key is NaN the sort is stable: elements of equal key keep
    their order. *)
Lemma sorted_reverse_stable (a b : A) (l : list A) :
  Forall (λ x, Float.is_nan (key x) = false) l →
  before a b (sorted_reverse key l) →
  Float.eqb (key a) (key b) = true → before a b l.
Proof.
  intros Hl Hbefore Heq.
  destruct (sorted_reverse_stable_sorted l Hl) as (_ & _ & Hstable).
  apply before_reverse, Hstable.
  - apply before_reverse. by rewrite reverse_involutive.
  - by apply eqb_ltb in Heq as [_ ?].
Qed.

End SortedReverse.

Lemma decreasing_sublist {A} (key : A → spec_float) (l k : list A) :
  l `sublist_of` k → decreasing key k → decreasing key l.
Proof. apply StronglySorted_sublist. Qed.

(** ** The descending sort of pandas *)

Section SortValues.

Context {A : Type} (key : A → spec_float).

Lemma insert_desc_Permutation (x : A) (l : list A) :
  insert_desc key x l ≡ₚ x :: l.
Proof.
  induction l as [|y l IH]; simpl; [done |].
  destruct (Float.leb (key y) (key x)); [done |].
  rewrite IH. apply Permutation_swap.
Qed.

Lemma sort_values_descending_Permutation (l : list A) :
  sort_values_descending key l ≡ₚ l.
Proof.
  unfold sort_values_descending.
  assert (∀ k, foldr (insert_desc key) [] k ≡ₚ k) as ->.
  { induction k as [|x k IH]; simpl; [done |].
    by rewrite insert_desc_Permutation, IH. }
  induction l as [|x l IH]; [done |].
  rewrite !filter_cons. destruct (Float.is_nan (key x)) eqn:Hx.
  - rewrite decide_False, decide_True by done.
    by rewrite <- Permutation_middle, IH.
  - rewrite decide_True, decide_False by done.
    simpl. by rewrite IH.
Qed.

(** In the sorted frame no row has one behind it that the descending
    order with NaN last puts strictly before it. *)
Lemma sort_values_descending_sorted (l : list A) :
  StronglySorted (λ a b, Float.desc_before (key b) (key a) = false)
    (sort_values_descending key l).
Proof.
  unfold sort_values_descending.
  set (numbers := filter (λ x, Float.is_nan (key x) = false) l).
  set (nans := filter (λ x, Float.is_nan (key x) = true) l).
  assert (Forall (λ x, Float.is_nan (key x) = false) numbers) as Hnumbers.
  { apply Forall_forall. intros x Hx.
    by apply list_elem_of_filter in Hx as [? _]. }
  assert (Forall (λ x, Float.is_nan (key x) = true) nans) as Hnans.
  { apply Forall_forall. intros x Hx.
    by apply list_elem_of_filter in Hx as [? _]. }
  clearbody numbers nans. apply StronglySorted_app_2.
  - intros a b Ha Hb. unfold Float.desc_before.
    rewrite Forall_forall in Hnans.
    assert (Float.is_nan (key a) = false) as ->;
      [| by apply ltb_nan_r, Hnans].
    assert (∀ k, foldr (insert_desc key) [] k ≡ₚ k) as Hperm.
    { induction k as [|x k IH]; simpl; [done |].
      by rewrite insert_desc_Permutation, IH. }
    rewrite Hperm in Ha. rewrite Forall_forall in Hnumbers. by apply Hnumbers.
  - clear Hnans. induction Hnumbers as [|x k Hx Hk IH]; simpl; [constructor |].
    assert (Forall (λ y, Float.is_nan (key y) = false)
              (foldr (insert_desc key) [] k)) as Hall.
    { assert (∀ k, foldr (insert_desc key) [] k ≡ₚ k) as ->; [| done].
      induction k0 as [|x' k' IH']; simpl; [done |].
      by rewrite insert_desc_Permutation, IH'. }
    revert IH Hall. generalize (foldr (insert_desc key) [] k).
    intros s Hs. induction Hs as [|y s Hs IH Hy]; intros Hall; simpl.
    + by repeat constructor.
    + apply Forall_cons in Hall as [Hny Hall].
      unfold Float.desc_before in *.
      destruct (Float.leb (key y) (key x)) eqn:Hle.
      * constructor; [by constructor |]. constructor.
        -- rewrite Hx. by apply leb_ltb.
        -- rewrite Forall_forall in Hy, Hall |- *. intros z Hz.
           rewrite Hx. specialize (Hy z Hz). rewrite Hny in Hy.
           apply (ltb_ntrans _ (key y)); [done | by apply leb_ltb | done].
      * constructor; [by apply IH |].
        rewrite insert_desc_Permutation. constructor; [| done].
        rewrite Hny. destruct (Float.ltb (key y) (key x)) eqn:Hlt; [| done].
        unfold Float.leb, Float.ltb, SFleb, SFltb in *.
        by destruct (SFcompare (key y) (key x)) as [[]|].
  - clear Hnumbers. induction Hnans as [|x k Hx Hk IH]; [constructor |].
    constructor; [done |].
    eapply Forall_impl; [exact Hk |]. simpl. intros y Hy.
    unfold Float.desc_before. by rewrite Hx, Hy.
Qed.

End SortValues.

(** ** The online generator *)

(** The loop that removes duplicates keeps [seen] equal to the track ids
    of [unique_recs], which stay distinct. *)
Lemma foldl_unique_step_invariant (recommendations : list Rec)
    (state : gset Z * list Rec) :
  (∀ tid, tid ∈ state.1 ↔ tid ∈ track_ids state.2) →
  NoDup (track_ids state.2) →
  NoDup (track_ids (foldl unique_step state recommendations).2).
Proof.
  revert state.
  induction recommendations as [|rec recs IH]; intros state Hseen Hnd; simpl.
  - done.
  - apply IH; unfold unique_step; case_bool_decide as Hin; simpl; try done.
    + intros tid. rewrite track_ids_app, elem_of_app, elem_of_union.
      rewrite elem_of_singleton, Hseen. simpl.
      rewrite list_elem_of_singleton. tauto.
    + rewrite track_ids_app. apply NoDup_app. split; [done |].
      split; [| apply NoDup_singleton].
      intros tid Htid ->%list_elem_of_singleton.
      apply Hin, Hseen, Htid.
Qed.

Lemma unique_recs_NoDup (recommendations : list Rec) :
  NoDup (track_ids (unique_recs recommendations)).
Proof.
  unfold unique_recs. apply foldl_unique_step_invariant; simpl.
  - intros tid. rewrite elem_of_empty. split; [done |]. by inversion 1.
  - apply NoDup_nil_2.
Qed.

(** Whatever the table, the history and the limit, the online generator
    returns the head of the sorted list of the candidates without
    duplicates. *)
Lemma get_online_recommendations_eq (self : RecommendationService)
    (user_history : list Z) (limit : Z) :
  get_online_recommendations self user_history limit
  = slice_to limit (sorted_reverse score (encounter_order self user_history)).
Proof.
  unfold get_online_recommendations, encounter_order.
  destruct user_history as [|t h], (similar_df self) as [df|]; try done.
  - symmetry. exact (slice_to_nil limit).
  - symmetry. exact (slice_to_nil limit).
  - symmetry. exact (slice_to_nil limit).
Qed.

Lemma encounter_order_NoDup (self : RecommendationService)
    (user_history : list Z) :
  NoDup (track_ids (encounter_order self user_history)).
Proof.
  unfold encounter_order. destruct (similar_df self).
  - apply unique_recs_NoDup.
  - apply NoDup_nil_2.
Qed.

Lemma online_NoDup (self : RecommendationService) (user_history : list Z)
    (limit : Z) :
  NoDup (track_ids (get_online_recommendations self user_history limit)).
Proof.
  rewrite get_online_recommendations_eq.
  eapply track_ids_NoDup_sublist; [apply slice_to_sublist |].
  unfold track_ids. rewrite sorted_reverse_Permutation.
  apply encounter_order_NoDup.
Qed.

(** C6, as the code has it: when no score of the candidates is NaN, the
    output of the online generator is in decreasing order of score, and
    two candidates of equal score stand in it in the order in which the
    lookups met them; the sort is applied to the candidates without
    duplicates and the result is then cut to the limit. *)
Theorem online_sorted_stable (self : RecommendationService)
    (user_history : list Z) (limit : Z) :
  let out := get_online_recommendations self user_history limit in
  let unique := encounter_order self user_history in
  no_nan_score unique →
  out = slice_to limit (sorted_reverse score unique)
  ∧ decreasing score out
  ∧ (∀ a b, before a b out → Float.eqb (score a) (score b) = true →
            before a b unique).
Proof.
  intros out unique Hnan. subst out unique.
  rewrite get_online_recommendations_eq. split; [done |]. split.
  - eapply decreasing_sublist; [apply slice_to_sublist |].
    by apply sorted_reverse_decreasing.
  - intros a b Hbefore Heq.
    eapply sorted_reverse_stable; [exact Hnan | | exact Heq].
    eapply before_slice_to, Hbefore.
Qed.

(** ** The recommendation endpoint *)

(** C1, as the code has it: for a request that passes validation the
    endpoint calls the online generator with the [limit] of the request,
    the same limit it gives to the offline generator and to the blender;
    the generator's own default of 5 is not used. *)
Theorem online_generator_gets_request_limit
    (sample : Z → list Item.t → list Item.t) (now : string)
    (service : RecommendationService) (user_id limit : Z)
    (online_history : option string) (user_online_history : list Z) :
  1 ≤ limit ≤ 100 →
  parse_online_history online_history = Some user_online_history →
  let offline_recs :=
    get_offline_recommendations sample service user_id limit in
  let online_recs :=
    get_online_recommendations service user_online_history limit in
  ∃ response,
    App.get_recommendations sample now service user_id limit online_history
    = Ok response
    ∧ Statistics.online_count (RecommendationResponse.statistics response)
      = len online_recs
    ∧ blend_recommendations offline_recs online_recs limit
      = Some (RecommendationResponse.recommendations response).
Proof.
  intros Hvalid Hparse offline_recs online_recs.
  unfold App.get_recommendations.
  rewrite bool_decide_eq_false_2 by lia. rewrite Hparse.
  fold offline_recs online_recs.
  destruct (blend_limits_valid limit Hvalid) as [limits Hlimits].
  unfold blend_recommendations. rewrite Hlimits. simpl.
  eexists. split; [reflexivity |]. split; reflexivity.
Qed.

(** When the tracks read from the user's rows of the personal table are
    distinct, the recommendations of a response hold no track id twice. *)
Lemma recommend_no_duplicate_track_id
    (sample : Z → list Item.t → list Item.t) (now : string)
    (service : RecommendationService) (user_id limit : Z)
    (online_history : option string)
    (response : RecommendationResponse.t) :
  (∀ df, personal_recs_df service = Some df →
     NoDup (personal_row_track_id
              <$> filter (λ row, Personal.user_id row = user_id) df)) →
  App.get_recommendations sample now service user_id limit online_history
  = Ok response →
  NoDup (track_ids (RecommendationResponse.recommendations response)).
Proof.
  intros Hkey. unfold App.get_recommendations.
  case_bool_decide; [discriminate |].
  destruct (parse_online_history online_history) as [hist|]; [| discriminate].
  unfold blend_recommendations.
  destruct (blend_limits limit) as [limits|]; simpl; [| discriminate].
  intros [= <-]. simpl. apply blend_with_NoDup.
  - by apply get_offline_recommendations_NoDup.
  - apply online_NoDup.
Qed.

(** * Runs on concrete tables *)

(** The examples of the specification. *)
Example blend_ten_three :
  track_ids
    <$> blend_recommendations (candidate <$> [1; 2; 3; 4; 5; 6; 7; 8; 9; 10])
          (candidate <$> [11; 12; 13]) 10
  = Some [1; 2; 3; 4; 5; 6; 7; 11; 12; 13].
Proof. by vm_compute. Qed.

Example online_one_seed :
  track_ids (get_online_recommendations service_similar [10] 5)
  = [21; 20; 22].
Proof. by vm_compute. Qed.

Example online_two_seeds :
  track_ids (get_online_recommendations service_similar [10; 11] 10)
  = [21; 20; 23; 24; 22; 25]
  ∧ track_ids (encounter_order service_similar [10; 11])
    = [21; 20; 22; 23; 24; 25].
Proof. by vm_compute. Qed.

(** Here the draw of the random stage is the first row of the catalog,
    track 1, which the personal stage has already given. *)
Example offline_abc :
  track_ids (get_offline_recommendations first_rows service_abc 5 3) = [1; 2].
Proof. by vm_compute. Qed.

(** C1, counterexample: with [limit = 10] and a history of two seeds the
    statistics of the response count six online candidates, while a call of
    the online generator with limit 5 returns five. *)
Lemma online_limit_counterexample :
  ∃ response,
    App.get_recommendations first_rows "now" service_similar 1 10
      (Some "10,11"%string) = Ok response
    ∧ Statistics.online_count (RecommendationResponse.statistics response)
      = 6
    ∧ len (get_online_recommendations service_similar [10; 11] 5) = 5.
Proof. eexists. by vm_compute. Qed.

Lemma online_generator_gets_request_limit_witness :
  ∃ response,
    App.get_recommendations first_rows "now" service_similar 1 10
      (Some "10,11"%string) = Ok response
    ∧ Statistics.online_count (RecommendationResponse.statistics response)
      = len (get_online_recommendations service_similar [10; 11] 10)
    ∧ blend_recommendations
        (get_offline_recommendations first_rows service_similar 1 10)
        (get_online_recommendations service_similar [10; 11] 10) 10
      = Some (RecommendationResponse.recommendations response).
Proof.
  apply (online_generator_gets_request_limit first_rows "now"
           service_similar 1 10 (Some "10,11"%string) [10; 11]).
  - lia.
  - reflexivity.
Defined.

(** C3, counterexample.  First input: the only candidate among the first
    [online_limit = 1] online candidates is already in the offline head, so
    the code appends nothing, while the procedure of the claim goes on to
    track 2.  Second input: the online list holds track 2 twice among its
    first [online_limit = 3] candidates and the code appends both, while
    the procedure of the claim appends 2 once and goes on to track 3. *)
Lemma online_fill_counterexample :
  (blend_limits 2 = Some (1, 1)
   ∧ track_ids (online_fill 1 1 [candidate 1] (candidate <$> [1; 2])) = [1]
   ∧ track_ids
       (spec_online_fill 1 (offline_head 1 [candidate 1])
          (candidate <$> [1; 2])) = [1; 2]
   ∧ track_ids
       <$> blend_recommendations [candidate 1] (candidate <$> [1; 2]) 2
     = Some [1])
  ∧ (blend_limits 10 = Some (7, 3)
     ∧ track_ids (online_fill 7 3 [candidate 1] (candidate <$> [1; 2; 2; 3]))
       = [1; 2; 2]
     ∧ track_ids
         (spec_online_fill 3 (offline_head 7 [candidate 1])
            (candidate <$> [1; 2; 2; 3])) = [1; 2; 3]).
Proof. by vm_compute. Qed.

Lemma blend_online_fill_witness :
  online_fill 1 1 [candidate 1] (candidate <$> [1; 2]) = [candidate 1]
  ∧ blend_recommendations [candidate 1] (candidate <$> [1; 2]) 2
    = Some [candidate 1].
Proof.
  destruct (blend_online_fill [candidate 1] (candidate <$> [1; 2]) 2 1 1)
    as [Hfill Hblend].
  - reflexivity.
  - split.
    + rewrite Hfill. by vm_compute.
    + rewrite Hblend. by vm_compute.
Defined.

(** C4: the code at an input where it leaves the claim.  The rows of user
    5 in the personal table of [service_large_ids] have the distinct
    tracks 2^53, 2^53 + 1 and 7.  The table has a [score] column, so the
    loop reads each row as a row of floats, in which 2^53 + 1 has become
    2^53; the personal stage, which does not test whether a track is
    already among the candidates, gives track 2^53 twice. *)
Theorem offline_same_track_twice (sample : Z → list Item.t → list Item.t) :
  let out := get_offline_recommendations sample service_large_ids 5 3 in
  (∃ rows,
     personal_recs_df service_large_ids = Some rows
     ∧ NoDup ((λ row, (Personal.user_id row, Personal.track_id row))
                <$> rows)
     ∧ personal_row_track_id <$> rows
       = [9007199254740992; 9007199254740992; 7])
  ∧ track_ids out = [9007199254740992; 9007199254740992; 7]
  ∧ ¬ NoDup (track_ids out).
Proof.
  assert (track_ids (get_offline_recommendations sample service_large_ids 5 3)
          = [9007199254740992; 9007199254740992; 7]) as Hout
    by (by vm_compute).
  cbv zeta. rewrite Hout. split; [| split; [done |]].
  - eexists. split; [reflexivity |]. split; [| by vm_compute].
    apply (bool_decide_unpack _). by vm_compute.
  - intros Hnd. apply NoDup_cons in Hnd as [Hnot _]. apply Hnot. left.
Qed.

(** C5: the code at an input where it leaves the claim, the one of C4.
    The offline generator gives track 2^53 twice, both candidates are in
    the offline head of the blender, which takes it over as it is, and the
    response of the endpoint names the track twice. *)
Theorem blend_same_track_twice (sample : Z → list Item.t → list Item.t)
    (now : string) :
  let offline_recs :=
    get_offline_recommendations sample service_large_ids 5 3 in
  let online_recs := get_online_recommendations service_large_ids [] 3 in
  blend_limits 3 = Some (2, 1)
  ∧ track_ids <$> blend_recommendations offline_recs online_recs 3
    = Some [9007199254740992; 9007199254740992; 7]
  ∧ (∃ response,
       App.get_recommendations sample now service_large_ids 5 3 None
       = Ok response
       ∧ track_ids (RecommendationResponse.recommendations response)
         = [9007199254740992; 9007199254740992; 7])
  ∧ ¬ NoDup [9007199254740992; 9007199254740992; 7].
Proof.
  split; [by vm_compute |]. split; [by vm_compute |]. split.
  - eexists. split; [by vm_compute | by vm_compute].
  - intros Hnd. apply NoDup_cons in Hnd as [Hnot _]. apply Hnot. left.
Qed.

(** C6, counterexample: the lookups meet track 20 with score 1.0, track 21
    with score NaN and track 22 with score 2.0.  The sort leaves the three
    candidates as they are: no comparison with NaN is true, so the list
    looks ascending to it once it is reversed.  In the output the score
    2.0 stands after the score 1.0. *)
Lemma online_nan_counterexample :
  let out := get_online_recommendations service_nan [10; 11] 10 in
  encounter_order service_nan [10; 11]
  = [ similar_to 10 20 "T20" (Float.lit 1 1);
      similar_to 10 21 "T21" S754_nan;
      similar_to 11 22 "T22" (Float.lit 2 1) ]
  ∧ out = encounter_order service_nan [10; 11]
  ∧ Float.leb (Float.lit 2 1) (Float.lit 1 1) = false
  ∧ ¬ decreasing score out.
Proof.
  assert (get_online_recommendations service_nan [10; 11] 10
          = [ similar_to 10 20 "T20" (Float.lit 1 1);
              similar_to 10 21 "T21" S754_nan;
              similar_to 11 22 "T22" (Float.lit 2 1) ]) as Hout
    by (by vm_compute).
  cbv zeta. rewrite Hout.
  split; [by vm_compute |]. split; [by vm_compute |].
  split; [by vm_compute |].
  intros Hsorted. apply StronglySorted_inv in Hsorted as [_ Hall].
  apply Forall_cons in Hall as [Hnan _]. by vm_compute in Hnan.
Qed.

Lemma online_sorted_stable_witness :
  before (similar_to 10 20 "T20" (Float.lit 8 10))
    (similar_to 11 23 "T23" (Float.lit 8 10))
    (encounter_order service_similar [10; 11]).
Proof.
  destruct (online_sorted_stable service_similar [10; 11] 10)
    as (_ & _ & Hstable).
  { vm_compute. repeat constructor. }
  apply Hstable.
  - exists [similar_to 10 21 "T21" (Float.lit 95 100)], [],
      [similar_to 11 24 "T24" (Float.lit 6 10);
       similar_to 10 22 "T22" (Float.lit 5 10);
       similar_to 11 25 "T25" (Float.lit 4 10)].
    by vm_compute.
  - reflexivity.
Defined.

Lemma offline_empty_without_catalog_witness :
  get_offline_recommendations first_rows service_no_catalog 5 3 = [].
Proof.
  apply (offline_empty_without_catalog first_rows service_no_catalog 5 3).
  reflexivity.
Defined.

Lemma track_not_found_without_catalog_witness :
  App.get_track_info service_no_catalog 7
  = HTTPException 404 "Track not found"%string
  ∧ App.get_track_info service_abc 7 = App.get_track_info service_no_catalog 7.
Proof.
  apply (track_not_found_without_catalog service_no_catalog service_abc
           catalog_abc 7).
  - reflexivity.
  - reflexivity.
  - compute_done.
Defined.

Lemma empty_online_history_is_no_history_witness :
  ∃ response,
    App.get_recommendations first_rows "now" service_abc 5 3
      (Some EmptyString) = Ok response
    ∧ Statistics.online_history_provided
        (RecommendationResponse.statistics response) = false
    ∧ Statistics.online_count (RecommendationResponse.statistics response)
      = 0.
Proof.
  destruct (empty_online_history_is_no_history first_rows "now" service_abc
              5 3) as (_ & _ & _ & Hok).
  apply Hok. lia.
Defined.

(** A personal row for track 2^53 + 1 gives a candidate for track 2^53,
    with the metadata of that track, and so does a similarity row. *)
Example offline_large_ids :
  get_offline_recommendations first_rows service_large_ids 5 2
  = [ personal_candidate
        (Personal.mk 5 9007199254740992 (Some (Float.lit 9 10)))
        (TrackInfo.mk "Even" [] []);
      personal_candidate
        (Personal.mk 5 9007199254740993 (Some (Float.lit 8 10)))
        (TrackInfo.mk "Even" [] []) ]
  ∧ track_id
      (personal_candidate
         (Personal.mk 5 9007199254740993 (Some (Float.lit 8 10)))
         (TrackInfo.mk "Even" [] []))
    = 9007199254740992.
Proof. by vm_compute. Qed.

Example online_large_id :
  get_online_recommendations service_similar_large [10] 5
  = [similar_to 10 9007199254740992 "Even" (Float.lit 5 10)].
Proof. by vm_compute. Qed.

(** A table that holds the row of a user and a track twice gives the track
    twice as well. *)
Example offline_repeated_row :
  track_ids (get_offline_recommendations first_rows service_repeated_row 5 2)
  = [1; 1].
Proof. by vm_compute. Qed.

(** The blender keeps what the offline head holds: an offline list with a
    repeated track id is blended into a list with that id repeated. *)
Example blend_repeated_row :
  track_ids
    <$> blend_recommendations
          (get_offline_recommendations first_rows service_repeated_row 5 3)
          [] 3
  = Some [1; 1].
Proof. by vm_compute. Qed.

Example health_no_catalog :
  App.health "now" service_no_catalog
  = HealthResponse.mk "degraded" false "now".
Proof. reflexivity. Qed.

Example health_abc :
  App.health "now" service_abc = HealthResponse.mk "healthy" true "now".
Proof. reflexivity. Qed.

(** * Further properties of the service *)

(** ** Loading *)

(** X1: [load_data] returns [True] exactly when the catalog could be read.
    After a success the four tables are what the four reads gave.  After a
    failure the catalog is absent and the three other tables are what they
    were before the call: they are not read. *)
Theorem load_data_outcome (s3 : ObjectStore) (self : RecommendationService) :
  let after := (load_data s3 self).1 in
  let ok := (load_data s3 self).2 in
  (ok = true ↔ is_Some (read_items s3))
  ∧ items_df after = read_items s3
  ∧ (ok = true →
     similar_df after = read_similar s3
     ∧ personal_recs_df after = read_personal s3
     ∧ top_popular_df after = read_top_popular s3)
  ∧ (ok = false →
     similar_df after = similar_df self
     ∧ personal_recs_df after = personal_recs_df self
     ∧ top_popular_df after = top_popular_df self).
Proof.
  unfold load_data. simpl.
  destruct (read_items s3) as [items|]; simpl.
  - split; [split; [by eexists | done] |]. split; [done |].
    split; [done | discriminate].
  - split; [split; [discriminate | by intros [? ?]] |]. split; [done |].
    split; [discriminate | done].
Qed.

(** X3: A load that succeeds need not leave the service healthy: after
    [load_data], whatever the state before, the health check reports
    [data_loaded] exactly when the catalog was read and the personal or
    the popularity table was read too. *)
Theorem health_after_load (now : string) (s3 : ObjectStore)
    (self : RecommendationService) :
  HealthResponse.data_loaded (App.health now (load_data s3 self).1) = true
  ↔ is_Some (read_items s3)
    ∧ (is_Some (read_personal s3) ∨ is_Some (read_top_popular s3)).
Proof.
  unfold load_data, App.health. simpl.
  destruct (read_items s3) as [items|]; simpl.
  - destruct (read_personal s3), (read_top_popular s3); simpl;
      (split; [intros H | intros [_ [[? H] | [? H]]]]);
      try done; try discriminate;
      (split; [by eexists |]); first [left; by eexists | right; by eexists].
  - split; [discriminate | by intros [[? ?] _]].
Qed.

(** ** Catalog lookup *)

Lemma get_track_info_is_Some (self : RecommendationService) (tid : Z) :
  is_Some (get_track_info self tid)
  ↔ ∃ df, items_df self = Some df ∧ tid ∈ Item.track_id <$> df.
Proof.
  split.
  - intros [info Hinfo]. unfold get_track_info in Hinfo.
    destruct (items_df self) as [df|]; [| done].
    exists df. split; [done |].
    destruct (filter _ df) as [|row rows] eqn:Hf; [done |].
    assert (row ∈ filter (λ row, Item.track_id row = tid) df) as Hin
      by (rewrite Hf; left).
    apply list_elem_of_filter in Hin as [<- Hin].
    by apply list_elem_of_fmap_2.
  - intros (df & Hdf & Hin).
    destruct (get_track_info self tid) eqn:Hget; [by eexists |].
    unfold get_track_info in Hget. rewrite Hdf in Hget.
    destruct (filter _ df) as [|row rows] eqn:Hf; [| done].
    apply list_elem_of_fmap in Hin as (row & -> & Hrow).
    exfalso. eapply filter_nil_not_elem_of; [exact Hf | | exact Hrow]. done.
Qed.

(** X5: A lookup succeeds exactly for the ids of the loaded catalog, and when
    several rows carry the id it gives the name, artists and genres of the
    first of them. *)
Theorem get_track_info_first_match (self : RecommendationService)
    (above below : list Item.t) (row : Item.t) (tid : Z) :
  (is_Some (get_track_info self tid)
   ↔ ∃ df, items_df self = Some df ∧ tid ∈ Item.track_id <$> df)
  ∧ (items_df self = Some (above ++ row :: below) →
     Item.track_id row ∉ Item.track_id <$> above →
     get_track_info self (Item.track_id row)
     = Some (TrackInfo.mk (Item.track_name row)
               (list_or_empty (Item.artist_names row))
               (list_or_empty (Item.genre_names row)))).
Proof.
  split; [apply get_track_info_is_Some |].
  intros Hdf Hnot. unfold get_track_info. rewrite Hdf.
  rewrite filter_app. rewrite (filter_cons_True _ row) by reflexivity.
  assert (filter (λ r, Item.track_id r = Item.track_id row) above = [])
    as ->; [| done].
  clear Hdf. induction above as [|r above IH]; [done |].
  rewrite fmap_cons, not_elem_of_cons in Hnot. destruct Hnot as [Hne Hnot].
  rewrite filter_cons_False by congruence. by apply IH.
Qed.

(** ** A service without catalog *)

Lemma foldl_similar_step_no_catalog (self : RecommendationService)
    (seed : Z) (rows : list Similar.t) (recs : list Rec) :
  items_df self = None → foldl (similar_step self seed) recs rows = recs.
Proof.
  intros H. induction rows as [|row rows IH]; simpl; [done |].
  unfold similar_step at 2.
  by rewrite (get_track_info_no_catalog _ _ H).
Qed.

Lemma online_no_catalog (self : RecommendationService)
    (user_history : list Z) (limit : Z) :
  items_df self = None →
  get_online_recommendations self user_history limit = [].
Proof.
  intros H. rewrite get_online_recommendations_eq.
  unfold encounter_order. destruct (similar_df self) as [df|].
  - assert (online_candidates self df user_history = []) as ->.
    { unfold online_candidates.
      apply (foldl_invariant (λ recs, recs = [])); [| done].
      intros recs seed ->. unfold history_step.
      by apply foldl_similar_step_no_catalog. }
    apply slice_to_nil.
  - apply slice_to_nil.
Qed.

Lemma offline_no_catalog (sample : Z → list Item.t → list Item.t)
    (self : RecommendationService) (user_id limit : Z) :
  items_df self = None →
  get_offline_recommendations sample self user_id limit = [].
Proof.
  intros H. unfold get_offline_recommendations, personal_stage,
    popular_stage, random_stage. rewrite H.
  destruct (personal_recs_df self) as [personal|];
    rewrite ?(foldl_personal_step_no_catalog self _ [] H);
    (destruct (top_popular_df self) as [popular|];
       [case_bool_decide;
          rewrite ?(foldl_popular_step_no_catalog self _ [] H) |]);
    apply slice_to_nil.
Qed.

Lemma blend_with_nil (offline_limit online_limit total_limit : Z) :
  blend_with offline_limit online_limit [] [] total_limit = [].
Proof.
  unfold blend_with, online_fill, offline_head, offline_backfill.
  rewrite !slice_to_nil. simpl.
  case_bool_decide; [| apply slice_to_nil].
  unfold slice_from. rewrite drop_nil, filter_nil, slice_to_nil.
  apply slice_to_nil.
Qed.

(** X7: The online generator returns nothing when the catalog is absent,
    whatever the similarity table, the history and the limit: no similar
    track can be resolved. *)
Theorem online_empty_without_catalog (self : RecommendationService)
    (user_history : list Z) (limit : Z) :
  items_df self = None →
  get_online_recommendations self user_history limit = [].
Proof. apply online_no_catalog. Qed.

Lemma recommend_no_catalog (sample : Z → list Item.t → list Item.t)
    (now : string) (service : RecommendationService) (user_id limit : Z)
    (online_history : option string) :
  items_df service = None →
  1 ≤ limit ≤ 100 →
  is_Some (parse_online_history online_history) →
  ∃ provided,
    App.get_recommendations sample now service user_id limit online_history
    = Ok (RecommendationResponse.mk user_id []
            (Statistics.mk 0 0 0 user_id provided) now).
Proof.
  intros Hnone Hvalid [hist Hparse]. unfold App.get_recommendations.
  rewrite bool_decide_eq_false_2 by lia. rewrite Hparse.
  rewrite (offline_no_catalog sample service user_id limit Hnone).
  rewrite (online_no_catalog service hist limit Hnone).
  destruct (blend_limits_valid limit Hvalid) as [limits Hlimits].
  unfold blend_recommendations. rewrite Hlimits. simpl.
  rewrite blend_with_nil. by eexists.
Qed.

(** X6: The recommendation endpoint of a service without catalog answers
    every request that passes validation with an empty list: the response
    is a success, not an error, and all three counts are zero. *)
Theorem recommend_without_catalog
    (sample : Z → list Item.t → list Item.t) (now : string)
    (service : RecommendationService) (user_id limit : Z)
    (online_history : option string) :
  items_df service = None →
  1 ≤ limit ≤ 100 →
  is_Some (parse_online_history online_history) →
  ∃ response,
    App.get_recommendations sample now service user_id limit online_history
    = Ok response
    ∧ RecommendationResponse.recommendations response = []
    ∧ Statistics.total_recommendations
        (RecommendationResponse.statistics response) = 0
    ∧ Statistics.offline_count
        (RecommendationResponse.statistics response) = 0
    ∧ Statistics.online_count
        (RecommendationResponse.statistics response) = 0.
Proof.
  intros Hnone Hvalid Hparse.
  destruct (recommend_no_catalog sample now service user_id limit
              online_history Hnone Hvalid Hparse) as [provided ->].
  by eexists.
Qed.

(** X4: When the catalog cannot be read at startup nothing is loaded, even if
    the three other tables could be read; the service then reports
    "degraded", knows no track, and answers valid recommendation requests
    with an empty list. *)
Theorem startup_without_catalog
    (sample : Z → list Item.t → list Item.t) (now : string)
    (s3 : ObjectStore) (user_id limit tid : Z)
    (online_history : option string) :
  read_items s3 = None →
  let service := startup_event s3 in
  service = new_service
  ∧ App.health now service = HealthResponse.mk "degraded" false now
  ∧ App.get_track_info service tid
    = HTTPException 404 "Track not found"%string
  ∧ (1 ≤ limit ≤ 100 →
     is_Some (parse_online_history online_history) →
     ∃ response,
       App.get_recommendations sample now service user_id limit
         online_history = Ok response
       ∧ RecommendationResponse.recommendations response = []).
Proof.
  intros Hread service.
  assert (service = new_service) as ->.
  { unfold service, startup_event, load_data. simpl. by rewrite Hread. }
  split; [done |]. split; [done |]. split; [done |].
  intros Hvalid Hparse.
  destruct (recommend_no_catalog sample now new_service user_id limit
              online_history eq_refl Hvalid Hparse) as [provided ->].
  by eexists.
Qed.

(** ** The online generator: where its candidates come from *)

(** A loop that only appends keeps what holds of every element. *)
Lemma foldl_Forall {A B} (P : A → Prop) (f : list A → B → list A)
    (l : list B) (a : list A) :
  (∀ a b, b ∈ l → Forall P a → Forall P (f a b)) →
  Forall P a → Forall P (foldl f a l).
Proof.
  revert a. induction l as [|b l IH]; intros a Hf Ha; simpl; [done |].
  apply IH.
  - intros a' b' Hb'. apply Hf. by right.
  - apply Hf; [left | done].
Qed.

Lemma similar_tracks_elem (df : list Similar.t) (seed : Z)
    (row : Similar.t) :
  row ∈ similar_tracks df seed → row ∈ df ∧ Similar.track_id row = seed.
Proof.
  intros Hin. unfold similar_tracks in Hin.
  eapply elem_of_sublist in Hin; [| apply slice_to_sublist].
  rewrite sort_values_descending_Permutation in Hin.
  apply list_elem_of_filter in Hin as [? ?]. done.
Qed.

Lemma similar_tracks_length (df : list Similar.t) (seed : Z) :
  (length (similar_tracks df seed) ≤ 3)%nat.
Proof.
  unfold similar_tracks, slice_to, slice_bound. simpl.
  rewrite length_take. lia.
Qed.

Lemma recent_tracks_length (user_history : list Z) :
  (length (slice_from (-5) user_history) ≤ 5)%nat.
Proof.
  unfold slice_from, slice_bound. simpl. rewrite length_drop. lia.
Qed.

(** Every candidate the lookups produce is made from a row that one of
    the lookups read. *)
Lemma online_candidates_made (self : RecommendationService)
    (df : list Similar.t) (user_history : list Z) :
  Forall (λ rec, ∃ row,
            row ∈ similar_tracks df (Similar.track_id row)
            ∧ Similar.track_id row ∈ slice_from (-5) user_history
            ∧ made_from_similar self row rec)
    (online_candidates self df user_history).
Proof.
  unfold online_candidates. apply foldl_Forall; [| constructor].
  intros recs seed Hseed Hrecs. unfold history_step.
  fold (similar_tracks df seed). apply foldl_Forall; [| done].
  intros recs' row Hrow Hrecs'. unfold similar_step.
  destruct (get_track_info self (similar_row_track_id row))
    as [info|] eqn:Hinfo; [| done].
  apply Forall_app. split; [done |]. constructor; [| constructor].
  exists row. destruct (similar_tracks_elem df seed row Hrow) as [_ <-].
  split; [done |]. split; [done |].
  unfold made_from_similar. simpl. by destruct info.
Qed.

(** The removal of duplicates keeps a sublist. *)
Lemma foldl_unique_step_sublist (recommendations : list Rec)
    (state : gset Z * list Rec) :
  ∃ kept, kept `sublist_of` recommendations
          ∧ (foldl unique_step state recommendations).2 = state.2 ++ kept.
Proof.
  revert state.
  induction recommendations as [|rec recs IH]; intros state; simpl.
  - exists []. split; [done | by rewrite app_nil_r].
  - destruct (IH (unique_step state rec)) as (kept & Hkept & ->).
    unfold unique_step. case_bool_decide; simpl.
    + exists (rec :: kept). split; [by apply sublist_skip |].
      by rewrite <- app_assoc.
    + exists kept. split; [by apply sublist_cons | done].
Qed.

Lemma unique_recs_sublist (recommendations : list Rec) :
  unique_recs recommendations `sublist_of` recommendations.
Proof.
  unfold unique_recs.
  destruct (foldl_unique_step_sublist recommendations (∅, []))
    as (kept & Hkept & ->).
  done.
Qed.

Lemma online_elem_candidates (self : RecommendationService)
    (user_history : list Z) (limit : Z) (rec : Rec) :
  rec ∈ get_online_recommendations self user_history limit →
  ∃ df, similar_df self = Some df
        ∧ rec ∈ online_candidates self df user_history.
Proof.
  rewrite get_online_recommendations_eq. intros Hin.
  eapply elem_of_sublist in Hin; [| apply slice_to_sublist].
  rewrite sorted_reverse_Permutation in Hin.
  unfold encounter_order in Hin.
  destruct (similar_df self) as [df|]; [| by inversion Hin].
  exists df. split; [done |].
  eapply elem_of_sublist; [exact Hin | apply unique_recs_sublist].
Qed.

(** In a sorted list an element among the first [n] has fewer than [n]
    elements that the order puts strictly before it. *)
Lemma sorted_rank {A} (R : A → A → bool) (l : list A) (n : nat) (x : A) :
  StronglySorted (λ a b, R b a = false) l → R x x = false → x ∈ take n l →
  (length (filter (λ y, R y x = true) l) < n)%nat.
Proof.
  intros Hsorted Hirrefl (i & Hi & Hlt)%elem_of_take.
  rewrite <- (take_drop_middle l i x Hi) in Hsorted |- *.
  apply StronglySorted_app_1_r in Hsorted.
  apply StronglySorted_inv in Hsorted as [_ Hall].
  rewrite filter_app.
  assert (filter (λ y, R y x = true) (x :: drop (S i) l) = []) as ->.
  { rewrite filter_cons_False by congruence.
    induction Hall as [|y rest Hy Hrest IH]; [done |].
    by rewrite filter_cons_False by congruence. }
  rewrite app_nil_r.
  pose proof (length_filter (λ y, R y x = true) (take i l)).
  pose proof (length_take_le l i).
  pose proof (lookup_lt_Some l i x Hi). rewrite length_take in *. lia.
Qed.

Lemma similar_tracks_rank (df : list Similar.t) (row : Similar.t) :
  row ∈ similar_tracks df (Similar.track_id row) →
  (length (better_rows df row) < 3)%nat.
Proof.
  intros Hrow. unfold better_rows.
  rewrite (list_filter_iff _
    (λ r, Float.desc_before (Similar.similarity_score r)
            (Similar.similarity_score row) = true
          ∧ Similar.track_id r = Similar.track_id row)) by (intros r; tauto).
  rewrite <- (list_filter_filter
    (λ r, Float.desc_before (Similar.similarity_score r)
            (Similar.similarity_score row) = true)
    (λ r, Similar.track_id r = Similar.track_id row)).
  set (seed_rows := filter (λ r, Similar.track_id r = Similar.track_id row)
                      df).
  rewrite <- (sort_values_descending_Permutation Similar.similarity_score
                seed_rows).
  apply (sorted_rank
           (λ a b, Float.desc_before (Similar.similarity_score a)
                     (Similar.similarity_score b))).
  - apply sort_values_descending_sorted.
  - apply desc_before_irrefl.
  - unfold similar_tracks, slice_to, slice_bound in Hrow. simpl in Hrow.
    exact Hrow.
Qed.

(** X8: Every candidate the online generator returns is made from a row of
    the similarity table: the row belongs to one of the last five tracks
    of the history, and fewer than three rows of that track come strictly
    before it in the descending order of scores (a NaN score after every
    number); the candidate carries the row's score and the similar track
    as it is read from the row of floats (the nearest float to the id, so
    an id above 2^53 may come out as a neighbour), names the seed in
    [based_on_track], is tagged "online" and "similar_to_history", and its
    track resolves in the catalog to the metadata it carries. *)
Theorem online_candidates_provenance (self : RecommendationService)
    (user_history : list Z) (limit : Z) (rec : Rec) :
  rec ∈ get_online_recommendations self user_history limit →
  ∃ df row,
    similar_df self = Some df
    ∧ row ∈ df
    ∧ Similar.track_id row ∈ slice_from (-5) user_history
    ∧ (length (better_rows df row) < 3)%nat
    ∧ made_from_similar self row rec.
Proof.
  intros (df & Hdf & Hin)%online_elem_candidates.
  pose proof (online_candidates_made self df user_history) as Hall.
  rewrite Forall_forall in Hall.
  destruct (Hall rec Hin) as (row & Hrow & Hseed & Hmade).
  exists df, row. split; [done |].
  split; [by destruct (similar_tracks_elem df _ row Hrow) |].
  split; [done |]. split; [by apply similar_tracks_rank | done].
Qed.

(** ** The online generator: size and window *)

Lemma slice_from_short {A} (l : list A) :
  (length l ≤ 5)%nat → slice_from (-5) l = l.
Proof.
  intros Hlen. unfold slice_from, slice_bound. simpl.
  assert (Z.to_nat (Z.max 0 (Z.of_nat (length l) + -5)) = 0%nat) as ->
    by lia.
  done.
Qed.

Lemma slice_from_nonempty {A} (l : list A) :
  l ≠ [] → slice_from (-5) l ≠ [].
Proof.
  intros Hne Hnil. apply (f_equal length) in Hnil.
  unfold slice_from, slice_bound in Hnil. simpl in Hnil.
  rewrite length_drop in Hnil.
  destruct l; [done |]. simpl in Hnil. lia.
Qed.

(** X10: Only the last five tracks of the history count: the generator
    returns the same list for a history and for its last five entries. *)
Theorem online_uses_last_five (self : RecommendationService)
    (user_history : list Z) (limit : Z) :
  get_online_recommendations self user_history limit
  = get_online_recommendations self (slice_from (-5) user_history) limit.
Proof.
  unfold get_online_recommendations.
  destruct user_history as [|t h]; [done |].
  pose proof (slice_from_nonempty (t :: h)) as Hne.
  destruct (slice_from (-5) (t :: h)) as [|t' h'] eqn:Hrecent;
    [by exfalso; apply Hne |].
  destruct (similar_df self) as [df|]; [| done].
  unfold online_candidates. rewrite Hrecent.
  rewrite (slice_from_short (t' :: h')); [done |].
  rewrite <- Hrecent. apply recent_tracks_length.
Qed.

Lemma foldl_similar_step_length (self : RecommendationService) (seed : Z)
    (rows : list Similar.t) (recs : list Rec) :
  (length (foldl (similar_step self seed) recs rows)
   ≤ length recs + length rows)%nat.
Proof.
  revert recs. induction rows as [|row rows IH]; intros recs; simpl; [lia |].
  etrans; [apply IH |]. unfold similar_step.
  destruct (get_track_info self _); rewrite ?length_app; simpl; lia.
Qed.

Lemma foldl_history_step_length (self : RecommendationService)
    (df : list Similar.t) (seeds : list Z) (recs : list Rec) :
  (length (foldl (history_step self df) recs seeds)
   ≤ length recs + 3 * length seeds)%nat.
Proof.
  revert recs. induction seeds as [|seed seeds IH]; intros recs; simpl;
    [lia |].
  etrans; [apply IH |]. unfold history_step. fold (similar_tracks df seed).
  pose proof (foldl_similar_step_length self seed (similar_tracks df seed)
                recs).
  pose proof (similar_tracks_length df seed). lia.
Qed.

Lemma encounter_order_length (self : RecommendationService)
    (user_history : list Z) :
  (length (encounter_order self user_history) ≤ 15)%nat.
Proof.
  unfold encounter_order. destruct (similar_df self) as [df|]; [| simpl; lia].
  etrans; [apply sublist_length, unique_recs_sublist |].
  unfold online_candidates.
  pose proof (foldl_history_step_length self df
                (slice_from (-5) user_history) []).
  pose proof (recent_tracks_length user_history). simpl in *. lia.
Qed.

(** X11: The online generator never returns more than fifteen candidates
    (three for each of five seeds), whatever the limit, and for a limit
    that is not negative never more than the limit. *)
Theorem online_length_bound (self : RecommendationService)
    (user_history : list Z) (limit : Z) :
  len (get_online_recommendations self user_history limit) ≤ 15
  ∧ (0 ≤ limit →
     len (get_online_recommendations self user_history limit) ≤ limit).
Proof.
  rewrite get_online_recommendations_eq. split.
  - unfold len.
    pose proof (sublist_length _ _
      (slice_to_sublist limit
         (sorted_reverse score (encounter_order self user_history)))) as H1.
    pose proof (Permutation_length
      (sorted_reverse_Permutation score
         (encounter_order self user_history))) as H2.
    pose proof (encounter_order_length self user_history). lia.
  - apply slice_to_len.
Qed.

(** X12: The output of the online generator never holds a track id twice,
    whatever the tables, the history and the limit. *)
Theorem online_no_duplicate_track_id (self : RecommendationService)
    (user_history : list Z) (limit : Z) :
  NoDup (track_ids (get_online_recommendations self user_history limit)).
Proof. apply online_NoDup. Qed.

(** X13: Raising the limit only extends the output of the online generator:
    the list for a smaller limit is the beginning of the list for a larger
    one. *)
Theorem online_prefix_in_limit (self : RecommendationService)
    (user_history : list Z) (limit limit' : Z) :
  0 ≤ limit ≤ limit' →
  get_online_recommendations self user_history limit
  `prefix_of` get_online_recommendations self user_history limit'.
Proof.
  intros Hle. rewrite !get_online_recommendations_eq.
  unfold slice_to, slice_bound.
  rewrite !bool_decide_eq_true_2 by lia.
  set (l := sorted_reverse score (encounter_order self user_history)).
  replace (take (Z.to_nat limit) l)
    with (take (Z.to_nat limit) (take (Z.to_nat limit') l)).
  - apply prefix_take.
  - rewrite take_take. f_equal. lia.
Qed.

(** X14: The candidates that name one seed in [based_on_track] are at most
    three, even when the seed occurs several times in the history. *)
Theorem online_at_most_three_per_seed (self : RecommendationService)
    (user_history : list Z) (limit seed : Z) :
  (length
     (filter (λ rec, TrackRecommendation.based_on_track rec = Some seed)
        (get_online_recommendations self user_history limit))
   ≤ 3)%nat.
Proof.
  set (out := get_online_recommendations self user_history limit).
  set (mine := filter _ out).
  destruct (similar_df self) as [df|] eqn:Hdf.
  - transitivity (length (similar_row_track_id <$> similar_tracks df seed)).
    + rewrite <- (length_fmap track_id mine).
      apply submseteq_length, NoDup_submseteq.
      * eapply sublist_NoDup; [apply (online_NoDup self user_history limit) |].
        apply fmap_sublist, sublist_filter.
      * intros tid (rec & -> & Hrec)%list_elem_of_fmap.
        apply list_elem_of_filter in Hrec as [Hseed Hrec].
        apply online_elem_candidates in Hrec as (df' & Hdf' & Hrec).
        assert (df' = df) as -> by congruence.
        pose proof (online_candidates_made self df user_history) as Hall.
        rewrite Forall_forall in Hall.
        destruct (Hall rec Hrec) as (row & Hrow & _ & Hmade).
        destruct Hmade as (-> & _ & Hbased & _).
        assert (Similar.track_id row = seed) as <- by congruence.
        by apply list_elem_of_fmap_2.
    + rewrite length_fmap. apply similar_tracks_length.
  - assert (out = []) as Hout.
    { unfold out. rewrite get_online_recommendations_eq.
      unfold encounter_order. rewrite Hdf. apply slice_to_nil. }
    unfold mine. rewrite Hout. simpl. lia.
Qed.

(** ** The offline generator: where its candidates come from *)

Section OfflineOrigin.

Variable sample : Z → list Item.t → list Item.t.

(** The three forms an offline candidate can have. *)
Let origin (self : RecommendationService) (user_id : Z) (rec : Rec) : Prop :=
  (∃ df row info,
     personal_recs_df self = Some df ∧ row ∈ df
     ∧ Personal.user_id row = user_id
     ∧ get_track_info self (personal_row_track_id row) = Some info
     ∧ rec = personal_candidate row info)
  ∨ (∃ df row info,
       top_popular_df self = Some df ∧ row ∈ df
       ∧ get_track_info self (Popular.track_id row) = Some info
       ∧ rec = popular_candidate row info)
  ∨ (∃ df n row,
       items_df self = Some df ∧ row ∈ sample n df
       ∧ rec = random_candidate row).

Lemma personal_stage_origin (self : RecommendationService)
    (user_id limit : Z) (recs : list Rec) :
  Forall (origin self user_id) recs →
  Forall (origin self user_id) (personal_stage self user_id limit recs).
Proof.
  intros Hrecs. unfold personal_stage.
  destruct (personal_recs_df self) as [df|] eqn:Hdf; [| done].
  apply foldl_Forall; [| done].
  intros recs' row Hrow Hrecs'. unfold personal_step.
  destruct (get_track_info self (personal_row_track_id row))
    as [info|] eqn:Hinfo; [| done].
  apply Forall_app. split; [done |]. constructor; [| constructor].
  left. exists df, row, info.
  eapply elem_of_sublist in Hrow; [| apply slice_to_sublist].
  apply list_elem_of_filter in Hrow as [Huser Hrow]. done.
Qed.

Lemma popular_stage_origin (self : RecommendationService)
    (user_id limit : Z) (recs : list Rec) :
  Forall (origin self user_id) recs →
  Forall (origin self user_id) (popular_stage self limit recs).
Proof.
  intros Hrecs. unfold popular_stage.
  destruct (top_popular_df self) as [df|] eqn:Hdf; [| done].
  case_bool_decide; [| done].
  apply foldl_Forall; [| done].
  intros recs' row Hrow Hrecs'. unfold popular_step.
  destruct (get_track_info self (Popular.track_id row)) as [info|] eqn:Hinfo;
    [| done].
  destruct (negb _); [| done].
  apply Forall_app. split; [done |]. constructor; [| constructor].
  right. left. exists df, row, info.
  eapply elem_of_sublist in Hrow; [| apply slice_to_sublist]. done.
Qed.

Lemma random_stage_origin (self : RecommendationService)
    (user_id limit : Z) (recs : list Rec) :
  Forall (origin self user_id) recs →
  Forall (origin self user_id) (random_stage sample self limit recs).
Proof.
  intros Hrecs. unfold random_stage.
  destruct (items_df self) as [df|] eqn:Hdf; [| done].
  case_bool_decide; [| done].
  apply foldl_Forall; [| done].
  intros recs' row Hrow Hrecs'. unfold random_step.
  destruct (negb _); [| done].
  apply Forall_app. split; [done |]. constructor; [| constructor].
  right. right. by exists df, (Z.min (limit - len recs) (len df)), row.
Qed.

(** X15: Every candidate of the offline generator is of one of three forms:
    made from a personal row of the user whose track resolves in the
    catalog, made from a popularity row whose track resolves in the
    catalog, or made from a row of the random draw.  The track of a
    personal row is the one the loop reads from it: the track id itself
    when the table has no [score] column, and else the integer of the
    nearest float, which is also the track id of the candidate. *)
Theorem offline_candidates_provenance (self : RecommendationService)
    (user_id limit : Z) (rec : Rec) :
  rec ∈ get_offline_recommendations sample self user_id limit →
  (∃ df row info,
     personal_recs_df self = Some df ∧ row ∈ df
     ∧ Personal.user_id row = user_id
     ∧ get_track_info self (personal_row_track_id row) = Some info
     ∧ rec = personal_candidate row info)
  ∨ (∃ df row info,
       top_popular_df self = Some df ∧ row ∈ df
       ∧ get_track_info self (Popular.track_id row) = Some info
       ∧ rec = popular_candidate row info)
  ∨ (∃ df n row,
       items_df self = Some df ∧ row ∈ sample n df
       ∧ rec = random_candidate row).
Proof.
  intros Hin. unfold get_offline_recommendations in Hin.
  eapply elem_of_sublist in Hin; [| apply slice_to_sublist].
  revert rec Hin. apply Forall_forall.
  apply (random_stage_origin self user_id), popular_stage_origin,
    personal_stage_origin.
  constructor.
Qed.

Lemma offline_in_catalog (self : RecommendationService) (user_id limit : Z)
    (rec : Rec) :
  (∀ n df row, row ∈ sample n df → row ∈ df) →
  rec ∈ get_offline_recommendations sample self user_id limit →
  is_Some (get_track_info self (track_id rec)).
Proof.
  intros Hsample Hin. unfold get_offline_recommendations in Hin.
  eapply elem_of_sublist in Hin; [| apply slice_to_sublist].
  pose proof (random_stage_origin self user_id limit _
                (popular_stage_origin self user_id limit _
                   (personal_stage_origin self user_id limit []
                      (Forall_nil_2 _)))) as Hall.
  rewrite Forall_forall in Hall.
  destruct (Hall rec Hin)
    as [(df & row & info & _ & _ & _ & Hinfo & ->)
       | [(df & row & info & _ & _ & Hinfo & ->)
         | (df & n & row & Hdf & Hrow & ->)]]; simpl.
  - by eexists.
  - by eexists.
  - apply get_track_info_is_Some. exists df. split; [done |].
    apply list_elem_of_fmap_2. by eapply Hsample.
Qed.

End OfflineOrigin.

(** ** The offline generator: order of the stages *)

Lemma foldl_personal_step_omap (self : RecommendationService)
    (rows : list Personal.t) (recs : list Rec) :
  foldl (personal_step self) recs rows
  = recs ++ omap (λ row, personal_candidate row
                           <$> get_track_info self (personal_row_track_id row))
              rows.
Proof.
  revert recs. induction rows as [|row rows IH]; intros recs; simpl.
  - by rewrite app_nil_r.
  - rewrite IH. unfold personal_step.
    destruct (get_track_info self (personal_row_track_id row)); simpl; [| done].
    by rewrite <- app_assoc.
Qed.

(** A loop whose body only appends gives an extension of what it started
    from. *)
Lemma foldl_extends {A B} (f : list A → B → list A) (l : list B)
    (a : list A) :
  (∀ a b, a `prefix_of` f a b) → a `prefix_of` foldl f a l.
Proof.
  intros Hf. revert a. induction l as [|b l IH]; intros a; simpl; [done |].
  etrans; [apply Hf | apply IH].
Qed.

Lemma popular_stage_extends (self : RecommendationService) (limit : Z)
    (recs : list Rec) :
  recs `prefix_of` popular_stage self limit recs.
Proof.
  unfold popular_stage. destruct (top_popular_df self); [| done].
  case_bool_decide; [| done]. apply foldl_extends.
  intros a row. unfold popular_step.
  destruct (get_track_info self _); [| done].
  destruct (negb _); [by apply prefix_app_r | done].
Qed.

Lemma random_stage_extends (sample : Z → list Item.t → list Item.t)
    (self : RecommendationService) (limit : Z) (recs : list Rec) :
  recs `prefix_of` random_stage sample self limit recs.
Proof.
  unfold random_stage. destruct (items_df self); [| done].
  case_bool_decide; [| done]. apply foldl_extends.
  intros a row. unfold random_step.
  destruct (negb _); [by apply prefix_app_r | done].
Qed.

Lemma omap_length_le {A B} (f : A → option B) (l : list A) :
  (length (omap f l) ≤ length l)%nat.
Proof.
  induction l as [|x l IH]; [simpl; lia |].
  csimpl. destruct (f x); simpl; lia.
Qed.

Lemma prefix_slice_to {A} (n : Z) (l k : list A) :
  len l ≤ n → l `prefix_of` k → l `prefix_of` slice_to n k.
Proof.
  intros Hlen [rest ->]. unfold slice_to, slice_bound, len in *.
  rewrite bool_decide_eq_true_2 by lia.
  rewrite take_app, take_ge by lia. by apply prefix_app_r.
Qed.

(** X16: For a limit that is not negative the output of the offline generator
    begins with the personal candidates: those of the first [limit] rows
    of the user in the personal table whose track, as the loop reads it
    from the row, resolves in the catalog, in table order.  Popular and
    random candidates only come after them. *)
Theorem offline_personal_first (sample : Z → list Item.t → list Item.t)
    (self : RecommendationService) (user_id limit : Z)
    (df : list Personal.t) :
  0 ≤ limit →
  personal_recs_df self = Some df →
  omap (λ row, personal_candidate row
                 <$> get_track_info self (personal_row_track_id row))
    (slice_to limit (filter (λ row, Personal.user_id row = user_id) df))
  `prefix_of` get_offline_recommendations sample self user_id limit.
Proof.
  intros Hlimit Hdf. unfold get_offline_recommendations.
  assert (personal_stage self user_id limit []
          = omap (λ row, personal_candidate row
                           <$> get_track_info self (personal_row_track_id row))
              (slice_to limit
                 (filter (λ row, Personal.user_id row = user_id) df)))
    as Hpersonal.
  { unfold personal_stage. rewrite Hdf. by rewrite foldl_personal_step_omap. }
  rewrite <- Hpersonal. apply prefix_slice_to.
  - rewrite Hpersonal. unfold len.
    pose proof (slice_to_len limit
                  (filter (λ row, Personal.user_id row = user_id) df) Hlimit).
    unfold len in *.
    etrans; [| eassumption]. apply inj_le, omap_length_le.
  - etrans; [apply popular_stage_extends | apply random_stage_extends].
Qed.

(** With a catalog that is not empty, a limit of at least one and a draw
    that is not empty, the offline generator returns at least one
    candidate, whatever the personal and the popularity table hold. *)
Lemma offline_nonempty (sample : Z → list Item.t → list Item.t)
    (self : RecommendationService) (user_id limit : Z)
    (df : list Item.t) :
  items_df self = Some df →
  1 ≤ limit →
  sample (Z.min limit (len df)) df ≠ [] →
  get_offline_recommendations sample self user_id limit ≠ [].
Proof.
  intros Hdf Hlimit Hsample. unfold get_offline_recommendations.
  set (recs := popular_stage self limit (personal_stage self user_id limit [])).
  assert (random_stage sample self limit recs ≠ []) as Hne.
  { destruct recs as [|rec recs'] eqn:Hrecs.
    - unfold random_stage. rewrite Hdf.
      rewrite bool_decide_eq_true_2 by (unfold len; simpl; lia).
      replace (limit - len []) with limit by (unfold len; simpl; lia).
      destruct (sample (Z.min limit (len df)) df) as [|row rows]; [done |].
      simpl. unfold random_step at 2. simpl.
      pose proof (foldl_extends random_step rows [random_candidate row])
        as Hext.
      intros Hnil. rewrite Hnil in Hext.
      destruct Hext as [rest Hrest].
      + intros a b. unfold random_step.
        destruct (negb _); [by apply prefix_app_r | done].
      + done.
    - pose proof (random_stage_extends sample self limit (rec :: recs'))
        as [rest ->].
      done. }
  destruct (random_stage sample self limit recs) as [|rec rest]; [done |].
  unfold slice_to, slice_bound.
  rewrite bool_decide_eq_true_2 by lia.
  destruct (Z.to_nat limit) eqn:Hn; [lia |]. done.
Qed.

(** ** The blender: shape and size of the result *)

(** On the limits the endpoint accepts the offline quota lies between
    zero and the limit, and is smaller than the limit. *)
Lemma blend_limits_bounds (total_limit offline_limit online_limit : Z) :
  1 ≤ total_limit ≤ 100 →
  blend_limits total_limit = Some (offline_limit, online_limit) →
  0 ≤ offline_limit < total_limit
  ∧ online_limit = total_limit - offline_limit.
Proof.
  intros H Hlim.
  pose (Q := λ n, match blend_limits n with
                  | Some (ol, onl) =>
                      bool_decide (onl = n - ol ∧ 0 ≤ ol < n)
                  | None => false
                  end).
  assert (Q total_limit = true) as HQ.
  { apply (forallb_seqZ Q 1 100); [by vm_compute | lia]. }
  unfold Q in HQ. rewrite Hlim in HQ.
  by apply bool_decide_eq_true in HQ as [-> ?].
Qed.

Lemma slice_to_all {A} (n : Z) (l : list A) : len l ≤ n → slice_to n l = l.
Proof.
  intros Hlen. unfold slice_to, slice_bound, len in *.
  rewrite bool_decide_eq_true_2 by lia. apply take_ge. lia.
Qed.

Lemma slice_lengths {A} (n : Z) (l : list A) :
  (length (slice_to n l) + length (slice_from n l) = length l)%nat.
Proof. rewrite <- length_app. by rewrite slice_to_from. Qed.

(** The top-up appends a part of the rest of the offline list. *)
Lemma offline_backfill_shape (offline_limit : Z) (offline_recs : list Rec)
    (total_limit : Z) (blended : list Rec) :
  ∃ back,
    offline_backfill offline_limit offline_recs total_limit blended
    = blended ++ back
    ∧ back `sublist_of` slice_from offline_limit offline_recs
    ∧ (∀ rec, rec ∈ back → track_id rec ∉ track_ids blended)
    ∧ (len blended ≤ total_limit → len (blended ++ back) ≤ total_limit).
Proof.
  unfold offline_backfill. case_bool_decide as Hlt.
  - eexists. split; [reflexivity |]. split; [| split].
    + etrans; [apply slice_to_sublist | apply sublist_filter].
    + intros rec Hrec.
      eapply elem_of_sublist in Hrec; [| apply slice_to_sublist].
      apply list_elem_of_filter in Hrec as [Hnot _].
      intros Hin. apply Hnot. by apply elem_of_list_to_set.
    + intros _.
      pose proof (slice_to_len (total_limit - len blended)
        (filter (λ rec, track_id rec
                        ∉ (list_to_set (track_ids blended) : gset Z))
           (slice_from offline_limit offline_recs))) as Hlen.
      unfold len in *. rewrite length_app. lia.
  - exists []. rewrite app_nil_r. split; [done |].
    split; [apply sublist_nil_l |]. split; [by inversion 1 | done].
Qed.

Lemma online_fill_len (offline_limit online_limit : Z)
    (offline_recs online_recs : list Rec) :
  0 ≤ offline_limit → 0 ≤ online_limit →
  len (online_fill offline_limit online_limit offline_recs online_recs)
  ≤ offline_limit + online_limit.
Proof.
  intros Hol Hon. rewrite online_fill_eq. cbv zeta.
  unfold len. rewrite length_app.
  pose proof (slice_to_len offline_limit offline_recs Hol).
  pose proof (slice_to_len online_limit online_recs Hon).
  pose proof (length_filter
    (λ rec, track_id rec ∉ track_ids (slice_to offline_limit offline_recs))
    (slice_to online_limit online_recs)).
  unfold len in *. lia.
Qed.

(** X18: On the limits the endpoint accepts, the blended list is the offline
    head, then the online candidates kept, then candidates of the rest of
    the offline list, in the order of that list and with track ids not
    yet in the result; the final cut to [total_limit] removes nothing. *)
Theorem blend_order (offline_recs online_recs : list Rec)
    (total_limit : Z) :
  1 ≤ total_limit ≤ 100 →
  ∃ offline_limit online_limit back,
    blend_limits total_limit = Some (offline_limit, online_limit)
    ∧ back `sublist_of` slice_from offline_limit offline_recs
    ∧ (let head := slice_to offline_limit offline_recs in
       let fill :=
         filter (λ rec, track_id rec ∉ track_ids head)
           (slice_to online_limit online_recs) in
       (∀ rec, rec ∈ back → track_id rec ∉ track_ids (head ++ fill))
       ∧ blend_recommendations offline_recs online_recs total_limit
         = Some (head ++ fill ++ back)).
Proof.
  intros Hvalid.
  destruct (blend_limits_valid total_limit Hvalid) as [[ol onl] Hlim].
  destruct (blend_limits_bounds _ _ _ Hvalid Hlim) as [Hol ->].
  destruct (offline_backfill_shape ol offline_recs total_limit
              (online_fill ol (total_limit - ol) offline_recs online_recs))
    as (back & Hback & Hsub & Hfresh & Hlen).
  exists ol, (total_limit - ol), back. split; [done |]. split; [done |].
  cbv zeta. rewrite online_fill_eq in Hfresh. split; [done |].
  unfold blend_recommendations. rewrite Hlim. simpl. unfold blend_with.
  rewrite Hback, slice_to_all.
  - rewrite online_fill_eq. cbv zeta. by rewrite <- app_assoc.
  - apply Hlen.
    pose proof (online_fill_len ol (total_limit - ol) offline_recs
                  online_recs). lia.
Qed.

Lemma blend_with_length (offline_limit online_limit : Z)
    (offline_recs online_recs : list Rec) (total_limit : Z) :
  (length (blend_with offline_limit online_limit offline_recs online_recs
             total_limit)
   ≤ length offline_recs + length online_recs)%nat.
Proof.
  unfold blend_with.
  etrans; [apply sublist_length, slice_to_sublist |].
  destruct (offline_backfill_shape offline_limit offline_recs total_limit
              (online_fill offline_limit online_limit offline_recs
                 online_recs))
    as (back & -> & Hsub & _ & _).
  rewrite online_fill_eq. cbv zeta. rewrite !length_app.
  apply sublist_length in Hsub.
  pose proof (slice_lengths offline_limit offline_recs).
  pose proof (length_filter
    (λ rec, track_id rec ∉ track_ids (slice_to offline_limit offline_recs))
    (slice_to online_limit online_recs)).
  pose proof (sublist_length _ _ (slice_to_sublist online_limit online_recs)).
  lia.
Qed.

Lemma blend_with_elem (offline_limit online_limit : Z)
    (offline_recs online_recs : list Rec) (total_limit : Z) (rec : Rec) :
  rec ∈ blend_with offline_limit online_limit offline_recs online_recs
          total_limit →
  rec ∈ offline_recs ∨ rec ∈ online_recs.
Proof.
  unfold blend_with. intros Hin.
  eapply elem_of_sublist in Hin; [| apply slice_to_sublist].
  destruct (offline_backfill_shape offline_limit offline_recs total_limit
              (online_fill offline_limit online_limit offline_recs
                 online_recs))
    as (back & Heq & Hsub & _ & _).
  rewrite Heq, online_fill_eq in Hin. cbv zeta in Hin.
  rewrite !elem_of_app in Hin. destruct Hin as [[Hin | Hin] | Hin].
  - left. eapply elem_of_sublist; [exact Hin | apply slice_to_sublist].
  - right. apply list_elem_of_filter in Hin as [_ Hin].
    eapply elem_of_sublist; [exact Hin | apply slice_to_sublist].
  - left. eapply elem_of_sublist; [exact Hin |].
    etrans; [exact Hsub | apply slice_from_sublist].
Qed.

(** X19: Whatever the limit, a blended list is no longer than the two input
    lists together, every candidate in it comes from one of them, and for
    a limit that is not negative it is no longer than the limit. *)
Theorem blend_bounds (offline_recs online_recs blended : list Rec)
    (total_limit : Z) :
  blend_recommendations offline_recs online_recs total_limit = Some blended →
  (length blended ≤ length offline_recs + length online_recs)%nat
  ∧ (∀ rec, rec ∈ blended → rec ∈ offline_recs ∨ rec ∈ online_recs)
  ∧ (0 ≤ total_limit → len blended ≤ total_limit).
Proof.
  unfold blend_recommendations.
  destruct (blend_limits total_limit) as [[ol onl]|]; [| done].
  simpl. intros [= <-]. split; [apply blend_with_length |].
  split; [intros rec; apply blend_with_elem |].
  unfold blend_with. apply slice_to_len.
Qed.

(** ** The blender with one list empty *)

Lemma slice_to_split {A} (n m : Z) (l : list A) :
  0 ≤ n ≤ m →
  slice_to n l ++ slice_to (m - len (slice_to n l)) (slice_from n l)
  = slice_to m l.
Proof.
  intros Hnm. unfold slice_to, slice_from, slice_bound, len.
  rewrite !(bool_decide_eq_true_2 (0 ≤ n)) by lia.
  rewrite (bool_decide_eq_true_2 (0 ≤ m)) by lia.
  rewrite length_take.
  rewrite bool_decide_eq_true_2 by lia.
  destruct (decide (Z.to_nat n ≤ length l)%nat) as [Hle | Hgt].
  - rewrite take_take_drop. f_equal. lia.
  - rewrite drop_ge, take_nil, app_nil_r by lia.
    rewrite !take_ge by lia. done.
Qed.

Lemma filter_all {A} (P : A → Prop) `{!∀ x, Decision (P x)} (l : list A) :
  (∀ x, P x) → filter P l = l.
Proof.
  intros HP. induction l as [|x l IH]; [done |].
  rewrite filter_cons_True by done. by rewrite IH.
Qed.

Lemma filter_fresh (head rest : list Rec) :
  NoDup (track_ids (head ++ rest)) →
  filter (λ rec, track_id rec ∉ (list_to_set (track_ids head) : gset Z)) rest
  = rest.
Proof.
  rewrite track_ids_app. intros (_ & Hdisjoint & _)%NoDup_app.
  induction rest as [|rec rest IH]; [done |].
  rewrite filter_cons_True.
  - f_equal. apply IH. intros tid Htid Hin. apply (Hdisjoint tid Htid).
    by right.
  - rewrite elem_of_list_to_set. intros Hin. apply (Hdisjoint _ Hin). left.
Qed.

(** X20: With no online candidates and an offline list without repeated track
    ids, the blend is the first [total_limit] offline candidates, in
    their order: the top-up restores what the 70% quota held back. *)
Theorem blend_without_online (offline_recs : list Rec) (total_limit : Z) :
  1 ≤ total_limit ≤ 100 →
  NoDup (track_ids offline_recs) →
  blend_recommendations offline_recs [] total_limit
  = Some (slice_to total_limit offline_recs).
Proof.
  intros Hvalid Hnd.
  destruct (blend_limits_valid total_limit Hvalid) as [[ol onl] Hlim].
  destruct (blend_limits_bounds _ _ _ Hvalid Hlim) as [Hol ->].
  unfold blend_recommendations. rewrite Hlim. simpl. f_equal.
  unfold blend_with. rewrite online_fill_eq. cbv zeta.
  rewrite slice_to_nil, filter_nil, app_nil_r.
  unfold offline_backfill.
  pose proof (slice_to_len ol offline_recs ltac:(lia)) as Hhead.
  rewrite bool_decide_eq_true_2 by lia.
  rewrite filter_fresh by (by rewrite slice_to_from).
  rewrite slice_to_split by lia.
  apply slice_to_all, slice_to_len. lia.
Qed.

(** X21: With no offline candidates the blend is the first [online_limit]
    online candidates: the online quota is not raised to fill the
    limit. *)
Theorem blend_without_offline (online_recs : list Rec) (total_limit : Z) :
  1 ≤ total_limit ≤ 100 →
  ∃ offline_limit online_limit,
    blend_limits total_limit = Some (offline_limit, online_limit)
    ∧ 1 ≤ online_limit ≤ total_limit
    ∧ blend_recommendations [] online_recs total_limit
      = Some (slice_to online_limit online_recs).
Proof.
  intros Hvalid.
  destruct (blend_limits_valid total_limit Hvalid) as [[ol onl] Hlim].
  destruct (blend_limits_bounds _ _ _ Hvalid Hlim) as [Hol ->].
  exists ol, (total_limit - ol). split; [done |]. split; [lia |].
  unfold blend_recommendations. rewrite Hlim. simpl. f_equal.
  unfold blend_with. rewrite online_fill_eq. cbv zeta.
  rewrite slice_to_nil. simpl.
  rewrite filter_all by (intros rec; by inversion 1).
  pose proof (slice_to_len (total_limit - ol) online_recs ltac:(lia)) as Hlen.
  unfold offline_backfill. case_bool_decide.
  - unfold slice_from. rewrite drop_nil, filter_nil, slice_to_nil, app_nil_r.
    apply slice_to_all. lia.
  - apply slice_to_all. lia.
Qed.

Lemma blend_with_nonempty (offline_limit : Z)
    (offline_recs online_recs : list Rec) (total_limit : Z) :
  1 ≤ total_limit → 0 ≤ offline_limit →
  offline_recs ≠ [] →
  blend_with offline_limit (total_limit - offline_limit) offline_recs
    online_recs total_limit ≠ [].
Proof.
  intros Htl Hol Hne. unfold blend_with.
  set (filled := online_fill _ _ _ _).
  assert (offline_backfill offline_limit offline_recs total_limit filled ≠ [])
    as Hback.
  { destruct filled as [|rec filled'] eqn:Hfilled.
    - unfold offline_backfill.
      rewrite bool_decide_eq_true_2 by (unfold len; simpl; lia). simpl.
      unfold filled in Hfilled. rewrite online_fill_eq in Hfilled.
      cbv zeta in Hfilled. apply app_eq_nil in Hfilled as [Hhead _].
      destruct offline_recs as [|rec recs]; [done |].
      assert (slice_bound offline_limit (rec :: recs) = 0%nat) as Hzero.
      { unfold slice_to in Hhead.
        destruct (slice_bound offline_limit (rec :: recs)); done. }
      unfold slice_from. rewrite Hzero. simpl.
      rewrite filter_cons_True by apply not_elem_of_empty.
      unfold slice_to, slice_bound.
      rewrite bool_decide_eq_true_2 by (unfold len; simpl; lia).
      replace (total_limit - len []) with total_limit
        by (unfold len; simpl; lia).
      destruct (Z.to_nat total_limit) eqn:Hn; [lia | done].
    - destruct (offline_backfill_shape offline_limit offline_recs total_limit
                  (rec :: filled')) as (back & -> & _).
      done. }
  destruct (offline_backfill _ _ _ _) as [|rec rest]; [done |].
  unfold slice_to, slice_bound. rewrite bool_decide_eq_true_2 by lia.
  destruct (Z.to_nat total_limit) eqn:Hn; [lia | done].
Qed.

(** ** The recommendation endpoint: outcomes *)

(** X22: The endpoint has three outcomes and no other: an invalid limit gives
    the 400 error about the limit, also when the history is malformed; a
    valid limit with a malformed history gives the 400 error about the
    history; every other request succeeds.  The 500 error of the source's
    catch-all handler is never raised. *)
Theorem recommend_outcomes (sample : Z → list Item.t → list Item.t)
    (now : string) (service : RecommendationService) (user_id limit : Z)
    (online_history : option string) :
  let result :=
    App.get_recommendations sample now service user_id limit online_history
  in
  (limit ≤ 0 ∨ 100 < limit →
   result = HTTPException 400 "Limit must be between 1 and 100"%string)
  ∧ (1 ≤ limit ≤ 100 →
     parse_online_history online_history = None →
     result = HTTPException 400 "Invalid online_history format"%string)
  ∧ (1 ≤ limit ≤ 100 →
     is_Some (parse_online_history online_history) →
     ∃ response, result = Ok response)
  ∧ (∀ detail, result ≠ HTTPException 500 detail).
Proof.
  unfold App.get_recommendations. cbv zeta.
  split; [| split; [| split]].
  - intros Hlimit. by rewrite bool_decide_eq_true_2 by lia.
  - intros Hlimit ->. by rewrite bool_decide_eq_false_2 by lia.
  - intros Hlimit [hist ->]. rewrite bool_decide_eq_false_2 by lia.
    destruct (blend_limits_valid limit Hlimit) as [limits Hlimits].
    unfold blend_recommendations. rewrite Hlimits. simpl. by eexists.
  - intros detail. case_bool_decide as Hlimit; [discriminate |].
    destruct (parse_online_history online_history); [| discriminate].
    destruct (blend_limits_valid limit ltac:(lia)) as [limits Hlimits].
    unfold blend_recommendations. rewrite Hlimits. simpl. discriminate.
Qed.

Lemma split_nonempty (sep : ascii) (s : string) : split sep s ≠ [].
Proof.
  destruct s as [|c s]; simpl; [done |].
  destruct (Ascii.eqb c sep); [done |]. by destruct (split sep s).
Qed.

Lemma parse_online_history_provided (online_history : option string)
    (user_online_history : list Z) :
  parse_online_history online_history = Some user_online_history →
  bool_decide (len user_online_history > 0) = truthy online_history.
Proof.
  unfold parse_online_history.
  destruct (truthy online_history) eqn:Htruthy.
  - unfold parse_history. intros Hparse%length_mapM.
    pose proof (split_nonempty "," (default EmptyString online_history)).
    destruct (split "," (default EmptyString online_history)); [done |].
    apply bool_decide_eq_true. unfold len. simpl in Hparse. lia.
  - by intros [= <-].
Qed.

(** X23: A successful response repeats the user id and the time stamp it was
    given; its total is the length of the list it returns, which is at
    most the limit and at most the sum of the two counts; the online
    count is at most 15; and [online_history_provided] is true exactly
    when the parameter was a string that is not empty. *)
Theorem recommend_statistics (sample : Z → list Item.t → list Item.t)
    (now : string) (service : RecommendationService) (user_id limit : Z)
    (online_history : option string)
    (response : RecommendationResponse.t) :
  App.get_recommendations sample now service user_id limit online_history
  = Ok response →
  let stats := RecommendationResponse.statistics response in
  RecommendationResponse.user_id response = user_id
  ∧ Statistics.user_id stats = user_id
  ∧ RecommendationResponse.timestamp response = now
  ∧ Statistics.total_recommendations stats
    = len (RecommendationResponse.recommendations response)
  ∧ Statistics.total_recommendations stats ≤ limit
  ∧ Statistics.total_recommendations stats
    ≤ Statistics.offline_count stats + Statistics.online_count stats
  ∧ Statistics.offline_count stats ≤ limit
  ∧ Statistics.online_count stats ≤ Z.min limit 15
  ∧ Statistics.online_history_provided stats = truthy online_history.
Proof.
  unfold App.get_recommendations.
  case_bool_decide as Hlimit; [discriminate |].
  destruct (parse_online_history online_history) as [hist|] eqn:Hparse;
    [| discriminate].
  unfold blend_recommendations.
  destruct (blend_limits limit) as [limits|]; simpl; [| discriminate].
  intros [= <-]. simpl.
  pose proof (blend_with_length limits.1 limits.2
    (get_offline_recommendations sample service user_id limit)
    (get_online_recommendations service hist limit) limit) as Hsum.
  assert (len (get_online_recommendations service hist limit) ≤ 15) as H15.
  { rewrite get_online_recommendations_eq. unfold len.
    pose proof (sublist_length _ _
      (slice_to_sublist limit
         (sorted_reverse score (encounter_order service hist)))).
    pose proof (Permutation_length
      (sorted_reverse_Permutation score (encounter_order service hist))).
    pose proof (encounter_order_length service hist). lia. }
  assert (len (get_online_recommendations service hist limit) ≤ limit)
    as Hon.
  { rewrite get_online_recommendations_eq. apply slice_to_len. lia. }
  repeat split; try done.
  - unfold blend_with. apply slice_to_len. lia.
  - unfold len. lia.
  - unfold get_offline_recommendations. apply slice_to_len. lia.
  - lia.
  - by apply parse_online_history_provided.
Qed.

(** X24: When the random draw takes its rows from the catalog, every
    recommendation of a response has a track id that the catalog
    resolves. *)
Theorem recommendations_resolve (sample : Z → list Item.t → list Item.t)
    (now : string) (service : RecommendationService) (user_id limit : Z)
    (online_history : option string)
    (response : RecommendationResponse.t) (rec : Rec) :
  (∀ n df row, row ∈ sample n df → row ∈ df) →
  App.get_recommendations sample now service user_id limit online_history
  = Ok response →
  rec ∈ RecommendationResponse.recommendations response →
  is_Some (get_track_info service (track_id rec)).
Proof.
  intros Hsample. unfold App.get_recommendations.
  case_bool_decide as Hlimit; [discriminate |].
  destruct (parse_online_history online_history) as [hist|]; [| discriminate].
  unfold blend_recommendations.
  destruct (blend_limits limit) as [limits|]; simpl; [| discriminate].
  intros [= <-]. simpl. intros [Hoff | Hon]%blend_with_elem.
  - by eapply offline_in_catalog.
  - apply online_elem_candidates in Hon as (df & Hdf & Hin).
    pose proof (online_candidates_made service df hist) as Hall.
    rewrite Forall_forall in Hall.
    destruct (Hall rec Hin) as (row & _ & _ & Hmade).
    destruct Hmade as (_ & _ & _ & _ & _ & ->). by eexists.
Qed.

(** X25: With a catalog from which the random draw gets at least one row, a
    valid request is never answered with an empty list, whatever the
    other tables hold and whoever the user is. *)
Theorem recommend_nonempty (sample : Z → list Item.t → list Item.t)
    (now : string) (service : RecommendationService) (user_id limit : Z)
    (online_history : option string) (df : list Item.t) :
  items_df service = Some df →
  1 ≤ limit ≤ 100 →
  is_Some (parse_online_history online_history) →
  sample (Z.min limit (len df)) df ≠ [] →
  ∃ response,
    App.get_recommendations sample now service user_id limit online_history
    = Ok response
    ∧ RecommendationResponse.recommendations response ≠ [].
Proof.
  intros Hdf Hvalid [hist Hparse] Hsample.
  unfold App.get_recommendations.
  rewrite bool_decide_eq_false_2 by lia. rewrite Hparse.
  destruct (blend_limits_valid limit Hvalid) as [[ol onl] Hlim].
  destruct (blend_limits_bounds _ _ _ Hvalid Hlim) as [Hol ->].
  unfold blend_recommendations. rewrite Hlim. simpl.
  eexists. split; [reflexivity |]. simpl.
  apply blend_with_nonempty; [lia | lia |].
  eapply offline_nonempty; [exact Hdf | lia | exact Hsample].
Qed.

(** ** Malformed histories *)

Lemma split_append_sep (sep : ascii) (s : string) :
  split sep (s ++ String sep EmptyString)%string
  = split sep s ++ [EmptyString].
Proof.
  induction s as [|c s IH]; simpl.
  - by rewrite Ascii.eqb_refl.
  - destruct (Ascii.eqb c sep); rewrite IH; [done |].
    pose proof (split_nonempty sep s). by destruct (split sep s).
Qed.

Lemma parse_history_blank_field (online_history field : string) :
  field ∈ split "," online_history → strip field = EmptyString →
  parse_history online_history = None.
Proof.
  intros Hin Hblank. unfold parse_history. apply mapM_None_2.
  apply Exists_exists. exists field. split; [done |].
  by rewrite Hblank.
Qed.

(** X26: A history with a blank field is malformed: when a field between the
    commas is empty or holds only white space, the parse fails; so a
    history that ends or begins with a comma is rejected, and so is a
    string of spaces.  For a valid limit the endpoint then raises the 400
    error about the history, unless the string is empty as a whole. *)
Theorem history_blank_field_rejected
    (sample : Z → list Item.t → list Item.t) (now : string)
    (service : RecommendationService) (user_id limit : Z)
    (online_history field : string) :
  (field ∈ split "," online_history → strip field = EmptyString →
   parse_history online_history = None
   ∧ (1 ≤ limit ≤ 100 → online_history ≠ EmptyString →
      App.get_recommendations sample now service user_id limit
        (Some online_history)
      = HTTPException 400 "Invalid online_history format"%string))
  ∧ parse_history (online_history ++ ",")%string = None
  ∧ parse_history ("," ++ online_history)%string = None.
Proof.
  split; [| split].
  - intros Hin Hblank.
    pose proof (parse_history_blank_field _ _ Hin Hblank) as Hnone.
    split; [done |]. intros Hvalid Hne.
    unfold App.get_recommendations, parse_online_history.
    rewrite bool_decide_eq_false_2 by lia.
    destruct online_history as [|c s]; [done |]. simpl truthy. cbv iota.
    simpl default. by rewrite Hnone.
  - apply (parse_history_blank_field _ EmptyString); [| done].
    rewrite split_append_sep, elem_of_app. right. left.
  - apply (parse_history_blank_field _ EmptyString); [| done].
    simpl. left.
Qed.

(** * Further runs on concrete tables *)

Lemma load_data_outcome_witness :
  let after := (load_data store_catalog_popular new_service).1 in
  similar_df after = read_similar store_catalog_popular
  ∧ personal_recs_df after = read_personal store_catalog_popular
  ∧ top_popular_df after = read_top_popular store_catalog_popular.
Proof.
  destruct (load_data_outcome store_catalog_popular new_service)
    as (_ & _ & Hok & _).
  apply Hok. reflexivity.
Defined.

Lemma startup_without_catalog_witness :
  startup_event store_no_catalog = new_service
  ∧ ∃ response,
      App.get_recommendations first_rows "now"
        (startup_event store_no_catalog) 5 3 (Some "1,2"%string)
      = Ok response
      ∧ RecommendationResponse.recommendations response = [].
Proof.
  destruct (startup_without_catalog first_rows "now" store_no_catalog 5 3 7
              (Some "1,2"%string)) as (Hnew & _ & _ & Hrecommend).
  - reflexivity.
  - split; [exact Hnew |]. apply Hrecommend; [lia | by eexists].
Defined.

Lemma get_track_info_first_match_witness :
  get_track_info service_abc 2
  = Some (TrackInfo.mk "B" ["Bob"%string] ["pop"%string]).
Proof.
  destruct (get_track_info_first_match service_abc
              [Item.mk 1 "A" (Some ["Ann"%string]) (Some ["rock"%string])]
              [Item.mk 3 "C" None None]
              (Item.mk 2 "B" (Some ["Bob"%string]) (Some ["pop"%string])) 2)
    as [_ Hfirst].
  apply Hfirst; [reflexivity | compute_done].
Defined.

Lemma recommend_without_catalog_witness :
  ∃ response,
    App.get_recommendations first_rows "now" service_no_catalog 5 3
      (Some "1"%string) = Ok response
    ∧ RecommendationResponse.recommendations response = []
    ∧ Statistics.total_recommendations
        (RecommendationResponse.statistics response) = 0
    ∧ Statistics.offline_count
        (RecommendationResponse.statistics response) = 0
    ∧ Statistics.online_count
        (RecommendationResponse.statistics response) = 0.
Proof.
  apply (recommend_without_catalog first_rows "now" service_no_catalog 5 3
           (Some "1"%string)); [reflexivity | lia | by eexists].
Defined.

Lemma online_empty_without_catalog_witness :
  get_online_recommendations service_no_catalog [1] 5 = [].
Proof.
  apply (online_empty_without_catalog service_no_catalog [1] 5). reflexivity.
Defined.

Lemma online_candidates_provenance_witness :
  ∃ df row,
    similar_df service_similar = Some df
    ∧ row ∈ df
    ∧ Similar.track_id row ∈ slice_from (-5) [10]
    ∧ (length (better_rows df row) < 3)%nat
    ∧ made_from_similar service_similar row
        (similar_to 10 21 "T21" (Float.lit 95 100)).
Proof.
  apply (online_candidates_provenance service_similar [10] 5
           (similar_to 10 21 "T21" (Float.lit 95 100))).
  assert (get_online_recommendations service_similar [10] 5
          = [similar_to 10 21 "T21" (Float.lit 95 100);
             similar_to 10 20 "T20" (Float.lit 8 10);
             similar_to 10 22 "T22" (Float.lit 5 10)]) as -> by (by vm_compute).
  left.
Defined.

Lemma online_length_bound_witness :
  len (get_online_recommendations service_similar [10; 11] 4) ≤ 4.
Proof.
  destruct (online_length_bound service_similar [10; 11] 4) as [_ Hlimit].
  apply Hlimit. lia.
Defined.

Lemma online_prefix_in_limit_witness :
  get_online_recommendations service_similar [10; 11] 2
  `prefix_of` get_online_recommendations service_similar [10; 11] 4.
Proof.
  apply (online_prefix_in_limit service_similar [10; 11] 2 4). lia.
Defined.

Lemma offline_candidates_provenance_witness :
  let rec := popular_candidate (Popular.mk 2 (Some 100))
               (TrackInfo.mk "B" ["Bob"%string] ["pop"%string]) in
  (∃ df row info,
     personal_recs_df service_abc = Some df ∧ row ∈ df
     ∧ Personal.user_id row = 5
     ∧ get_track_info service_abc (personal_row_track_id row) = Some info
     ∧ rec = personal_candidate row info)
  ∨ (∃ df row info,
       top_popular_df service_abc = Some df ∧ row ∈ df
       ∧ get_track_info service_abc (Popular.track_id row) = Some info
       ∧ rec = popular_candidate row info)
  ∨ (∃ df n row,
       items_df service_abc = Some df ∧ row ∈ first_rows n df
       ∧ rec = random_candidate row).
Proof.
  apply (offline_candidates_provenance first_rows service_abc 5 3).
  assert (get_offline_recommendations first_rows service_abc 5 3
          = [personal_candidate (Personal.mk 5 1 (Some (Float.lit 9 10)))
               (TrackInfo.mk "A" ["Ann"%string] ["rock"%string]);
             popular_candidate (Popular.mk 2 (Some 100))
               (TrackInfo.mk "B" ["Bob"%string] ["pop"%string])])
    as -> by (by vm_compute).
  right. left.
Defined.

Lemma offline_personal_first_witness :
  [personal_candidate (Personal.mk 5 1 (Some (Float.lit 9 10)))
     (TrackInfo.mk "A" ["Ann"%string] ["rock"%string])]
  `prefix_of` get_offline_recommendations first_rows service_abc 5 3.
Proof.
  apply (offline_personal_first first_rows service_abc 5 3
           [Personal.mk 5 1 (Some (Float.lit 9 10))]); [lia | reflexivity].
Defined.

Lemma blend_order_witness :
  ∃ offline_limit online_limit back,
    blend_limits 10 = Some (offline_limit, online_limit)
    ∧ back `sublist_of` slice_from offline_limit (candidate <$> [1; 2; 3])
    ∧ (let head := slice_to offline_limit (candidate <$> [1; 2; 3]) in
       let fill :=
         filter (λ rec, track_id rec ∉ track_ids head)
           (slice_to online_limit (candidate <$> [3; 4])) in
       (∀ rec, rec ∈ back → track_id rec ∉ track_ids (head ++ fill))
       ∧ blend_recommendations (candidate <$> [1; 2; 3])
           (candidate <$> [3; 4]) 10
         = Some (head ++ fill ++ back)).
Proof.
  apply (blend_order (candidate <$> [1; 2; 3]) (candidate <$> [3; 4]) 10).
  lia.
Defined.

Lemma blend_bounds_witness :
  (length (candidate <$> [1; 2; 3; 4]%Z)
   ≤ length (candidate <$> [1; 2; 3]%Z) + length (candidate <$> [3; 4]%Z))%nat
  ∧ len (candidate <$> [1; 2; 3; 4]) ≤ 10.
Proof.
  destruct (blend_bounds (candidate <$> [1; 2; 3]) (candidate <$> [3; 4])
              (candidate <$> [1; 2; 3; 4]) 10) as (Hsum & _ & Hlimit).
  - by vm_compute.
  - split; [exact Hsum | apply Hlimit; lia].
Defined.

Lemma blend_without_online_witness :
  blend_recommendations (candidate <$> [1; 2; 3; 4; 5]) [] 4
  = Some (slice_to 4 (candidate <$> [1; 2; 3; 4; 5])).
Proof.
  apply (blend_without_online (candidate <$> [1; 2; 3; 4; 5]) 4); [lia |].
  vm_compute. compute_done.
Defined.

Lemma blend_without_offline_witness :
  ∃ offline_limit online_limit,
    blend_limits 10 = Some (offline_limit, online_limit)
    ∧ 1 ≤ online_limit ≤ 10
    ∧ blend_recommendations [] (candidate <$> [1; 2; 3; 4; 5]) 10
      = Some (slice_to online_limit (candidate <$> [1; 2; 3; 4; 5])).
Proof.
  apply (blend_without_offline (candidate <$> [1; 2; 3; 4; 5]) 10). lia.
Defined.

Lemma recommend_outcomes_witness :
  App.get_recommendations first_rows "now" service_abc 5 0
    (Some "x"%string)
  = HTTPException 400 "Limit must be between 1 and 100"%string
  ∧ App.get_recommendations first_rows "now" service_abc 5 3
      (Some "x"%string)
    = HTTPException 400 "Invalid online_history format"%string.
Proof.
  split.
  - destruct (recommend_outcomes first_rows "now" service_abc 5 0
                (Some "x"%string)) as (Hlimit & _).
    apply Hlimit. lia.
  - destruct (recommend_outcomes first_rows "now" service_abc 5 3
                (Some "x"%string)) as (_ & Hhistory & _).
    apply Hhistory; [lia | reflexivity].
Defined.

Lemma recommend_statistics_witness :
  ∃ response,
    App.get_recommendations first_rows "now" service_similar 1 10
      (Some "10,11"%string) = Ok response
    ∧ Statistics.online_count (RecommendationResponse.statistics response)
      ≤ Z.min 10 15
    ∧ Statistics.online_history_provided
        (RecommendationResponse.statistics response)
      = truthy (Some "10,11"%string).
Proof.
  eexists. split; [by vm_compute |].
  eapply (recommend_statistics first_rows "now" service_similar 1 10
            (Some "10,11"%string)).
  by vm_compute.
Defined.

Lemma recommendations_resolve_witness :
  is_Some (get_track_info service_abc 1).
Proof.
  eapply (recommendations_resolve first_rows "now" service_abc 5 3 None _
            (personal_candidate (Personal.mk 5 1 (Some (Float.lit 9 10)))
               (TrackInfo.mk "A" ["Ann"%string] ["rock"%string]))).
  - intros n df row Hrow.
    eapply elem_of_sublist; [exact Hrow | apply slice_to_sublist].
  - reflexivity.
  - vm_compute. left.
Defined.

Lemma recommend_nonempty_witness :
  ∃ response,
    App.get_recommendations first_rows "now" service_abc 9 3 None
    = Ok response
    ∧ RecommendationResponse.recommendations response ≠ [].
Proof.
  apply (recommend_nonempty first_rows "now" service_abc 9 3 None
           catalog_abc); [reflexivity | lia | by eexists | by vm_compute].
Defined.

Lemma history_blank_field_rejected_witness :
  parse_history "1,,2" = None
  ∧ App.get_recommendations first_rows "now" service_abc 5 3
      (Some "1,,2"%string)
    = HTTPException 400 "Invalid online_history format"%string.
Proof.
  destruct (history_blank_field_rejected first_rows "now" service_abc 5 3
              "1,,2" EmptyString) as [Hblank _].
  destruct Hblank as [Hparse Hendpoint].
  - vm_compute. right. left.
  - reflexivity.
  - split; [exact Hparse |]. apply Hendpoint; [lia | discriminate].
Defined.

(** * Order of the stages, first occurrences, reloading *)

(** A loop whose body appends elements that satisfy [P] appends a list of
    such elements. *)
Lemma foldl_appends {A B} (P : A → Prop) (f : list A → B → list A)
    (l : list B) (a : list A) :
  (∀ a b, ∃ k, f a b = a ++ k ∧ Forall P k) →
  ∃ k, foldl f a l = a ++ k ∧ Forall P k.
Proof.
  intros Hf. revert a. induction l as [|b l IH]; intros a; simpl.
  - exists []. by rewrite app_nil_r.
  - destruct (Hf a b) as (k1 & -> & Hk1).
    destruct (IH (a ++ k1)) as (k2 & -> & Hk2).
    exists (k1 ++ k2). rewrite <- app_assoc. split; [done |].
    by apply Forall_app.
Qed.

Lemma personal_stage_appends (self : RecommendationService)
    (user_id limit : Z) (recs : list Rec) :
  ∃ k, personal_stage self user_id limit recs = recs ++ k
       ∧ Forall (λ rec, TrackRecommendation.type rec = "personal_als"%string)
           k.
Proof.
  unfold personal_stage. destruct (personal_recs_df self).
  - apply foldl_appends. intros a row. unfold personal_step.
    destruct (get_track_info self _).
    + eexists. split; [done |]. by repeat constructor.
    + exists []. by rewrite app_nil_r.
  - exists []. by rewrite app_nil_r.
Qed.

Lemma popular_stage_appends (self : RecommendationService) (limit : Z)
    (recs : list Rec) :
  ∃ k, popular_stage self limit recs = recs ++ k
       ∧ Forall (λ rec, TrackRecommendation.type rec = "top_popular"%string)
           k.
Proof.
  unfold popular_stage.
  destruct (top_popular_df self); [| exists []; by rewrite app_nil_r].
  case_bool_decide; [| exists []; by rewrite app_nil_r].
  apply foldl_appends. intros a row. unfold popular_step.
  destruct (get_track_info self _); [| exists []; by rewrite app_nil_r].
  destruct (negb _); [| exists []; by rewrite app_nil_r].
  eexists. split; [done |]. by repeat constructor.
Qed.

Lemma random_stage_appends (sample : Z → list Item.t → list Item.t)
    (self : RecommendationService) (limit : Z) (recs : list Rec) :
  ∃ k, random_stage sample self limit recs = recs ++ k
       ∧ Forall (λ rec, TrackRecommendation.type rec = "random"%string) k.
Proof.
  unfold random_stage.
  destruct (items_df self); [| exists []; by rewrite app_nil_r].
  case_bool_decide; [| exists []; by rewrite app_nil_r].
  apply foldl_appends. intros a row. unfold random_step.
  destruct (negb _); [| exists []; by rewrite app_nil_r].
  eexists. split; [done |]. by repeat constructor.
Qed.

(** X17: The output of the offline generator is in the order of the stages,
    for every limit: first the candidates of type "personal_als", then
    those of type "top_popular", then those of type "random"; it is not
    sorted by score. *)
Theorem offline_stage_order (sample : Z → list Item.t → list Item.t)
    (self : RecommendationService) (user_id limit : Z) :
  ∃ personal popular random,
    get_offline_recommendations sample self user_id limit
    = personal ++ popular ++ random
    ∧ Forall (λ rec, TrackRecommendation.type rec = "personal_als"%string)
        personal
    ∧ Forall (λ rec, TrackRecommendation.type rec = "top_popular"%string)
        popular
    ∧ Forall (λ rec, TrackRecommendation.type rec = "random"%string) random.
Proof.
  unfold get_offline_recommendations.
  destruct (personal_stage_appends self user_id limit [])
    as (k1 & -> & Hk1).
  destruct (popular_stage_appends self limit ([] ++ k1)) as (k2 & -> & Hk2).
  destruct (random_stage_appends sample self limit (([] ++ k1) ++ k2))
    as (k3 & -> & Hk3).
  simpl. unfold slice_to.
  set (n := slice_bound limit ((k1 ++ k2) ++ k3)).
  exists (take n k1), (take (n - length k1) k2),
    (take (n - length k1 - length k2) k3).
  split.
  - rewrite !take_app, length_app, <- app_assoc. do 3 f_equal. lia.
  - split; [by apply Forall_take |].
    split; by apply Forall_take.
Qed.

(** Among candidates with the same track id the removal of duplicates
    keeps the one met first. *)
Lemma foldl_unique_step_first (recommendations : list Rec)
    (state : gset Z * list Rec) (rec : Rec) :
  rec ∈ (foldl unique_step state recommendations).2 →
  rec ∈ state.2
  ∨ (∃ l1 l2, recommendations = l1 ++ rec :: l2
              ∧ (track_id rec ∉ track_ids l1)
              ∧ (track_id rec ∉ state.1)).
Proof.
  revert state.
  induction recommendations as [|x l IH]; intros state; simpl; [by left |].
  intros Hin. apply IH in Hin. unfold unique_step in Hin.
  case_bool_decide as Hx; simpl in Hin.
  - destruct Hin as [Hin | (l1 & l2 & -> & Hl1 & Hseen)].
    + apply elem_of_app in Hin as [Hin | Hin]; [by left |].
      apply list_elem_of_singleton in Hin as ->.
      right. exists [], l. split; [done |]. split; [by inversion 1 | done].
    + right. exists (x :: l1), l2. split; [done |].
      rewrite not_elem_of_union, not_elem_of_singleton in Hseen.
      destruct Hseen as [Hne Hseen]. split; [| done].
      simpl. rewrite not_elem_of_cons. done.
  - destruct Hin as [Hin | (l1 & l2 & -> & Hl1 & Hseen)]; [by left |].
    right. exists (x :: l1), l2. split; [done |]. split; [| done].
    simpl. rewrite not_elem_of_cons. split; [| done].
    intros Heq. apply Hseen. rewrite Heq.
    by destruct (decide (track_id x ∈ state.1)).
Qed.

(** X9: When several lookups meet the same track, the candidate the online
    generator returns for it is the one met first, with the score and the
    seed of that lookup, also when a later lookup gives the track a
    higher score: every returned candidate occurs in the list of all
    candidates with no candidate of the same track before it. *)
Theorem online_keeps_first_occurrence (self : RecommendationService)
    (user_history : list Z) (limit : Z) (rec : Rec) :
  rec ∈ get_online_recommendations self user_history limit →
  ∃ df l1 l2,
    similar_df self = Some df
    ∧ online_candidates self df user_history = l1 ++ rec :: l2
    ∧ track_id rec ∉ track_ids l1.
Proof.
  rewrite get_online_recommendations_eq. intros Hin.
  eapply elem_of_sublist in Hin; [| apply slice_to_sublist].
  rewrite sorted_reverse_Permutation in Hin.
  unfold encounter_order in Hin.
  destruct (similar_df self) as [df|]; [| by inversion Hin].
  unfold unique_recs in Hin.
  apply foldl_unique_step_first in Hin
    as [Hin | (l1 & l2 & Heq & Hl1 & _)]; [by inversion Hin |].
  by exists df, l1, l2.
Qed.

(** X2: Loading twice from an object store that has not changed gives the
    state and the result of loading once. *)
Theorem load_data_idempotent (s3 : ObjectStore)
    (self : RecommendationService) :
  load_data s3 (load_data s3 self).1 = load_data s3 self.
Proof.
  unfold load_data. simpl. by destruct (read_items s3).
Qed.

(** * Histories that parse *)

Example join_ints_test_client :
  join_ints [53404; 33311009; 178529; 35505245; 65851540]
  = "53404,33311009,178529,35505245,65851540"%string
  ∧ join_ints [-7; 0] = "-7,0"%string.
Proof. by vm_compute. Qed.

Lemma digit_char_spec (d : Z) :
  0 ≤ d ≤ 9 →
  digit_value (digit_char d) = Some d
  ∧ Ascii.eqb (digit_char d) "_" = false
  ∧ Ascii.eqb (digit_char d) "-" = false
  ∧ Ascii.eqb (digit_char d) "+" = false
  ∧ plain_char (digit_char d) = true.
Proof.
  intros Hd.
  assert (d = 0 ∨ d = 1 ∨ d = 2 ∨ d = 3 ∨ d = 4 ∨ d = 5 ∨ d = 6 ∨ d = 7
          ∨ d = 8 ∨ d = 9) as Hcases by lia.
  repeat (destruct Hcases as [-> | Hcases]; [by vm_compute |]).
  subst d. by vm_compute.
Qed.

Lemma append_cons (c : ascii) (s t : string) :
  (String c s ++ t)%string = String c (s ++ t)%string.
Proof. reflexivity. Qed.

Lemma append_assoc_string (s1 s2 s3 : string) :
  ((s1 ++ s2) ++ s3 = s1 ++ (s2 ++ s3))%string.
Proof.
  induction s1 as [|c s1 IH]; [done |].
  rewrite !append_cons. by f_equal.
Qed.

Lemma append_empty_r (s : string) : (s ++ EmptyString)%string = s.
Proof.
  induction s as [|c s IH]; [done |]. rewrite append_cons. by f_equal.
Qed.

Lemma all_chars_append (p : ascii → bool) (s1 s2 : string) :
  all_chars p (s1 ++ s2)%string = all_chars p s1 && all_chars p s2.
Proof.
  induction s1 as [|c s1 IH]; [done |].
  rewrite append_cons. simpl. rewrite <- andb_assoc. by f_equal.
Qed.

Lemma int_digits_digit (after_digit : bool) (acc d : Z) (rest : string) :
  0 ≤ d ≤ 9 →
  int_digits after_digit acc (String (digit_char d) rest)
  = int_digits true (10 * acc + d) rest.
Proof.
  intros Hd. destruct (digit_char_spec d Hd) as (Hvalue & Hunder & _).
  simpl. by rewrite Hunder, Hvalue.
Qed.

(** Reading the digits of [n] multiplies what was read before by a power
    of ten and adds [n]. *)
Lemma int_digits_str_nat (fuel : nat) (n : Z) (after_digit : bool) (acc : Z)
    (rest : string) :
  0 ≤ n < 2 ^ (Z.of_nat fuel + 1) →
  ∃ k, (0 ≤ k)
       ∧ int_digits after_digit acc (str_nat (S fuel) n ++ rest)%string
         = int_digits true (acc * 10 ^ k + n) rest.
Proof.
  revert n after_digit acc rest.
  induction fuel as [|fuel IH]; intros n after_digit acc rest Hn.
  - assert ((n <? 10) = true) as Hlt by (apply Z.ltb_lt; simpl in Hn; lia).
    simpl. rewrite Hlt. exists 1. split; [lia |].
    rewrite append_cons. simpl String.append.
    rewrite int_digits_digit by (simpl in Hn; lia). f_equal. lia.
  - change (str_nat (S (S fuel)) n)
      with (if n <? 10 then String (digit_char n) EmptyString
            else (str_nat (S fuel) (n / 10)
                  ++ String (digit_char (n mod 10)) EmptyString)%string).
    destruct (n <? 10) eqn:Hlt.
    + apply Z.ltb_lt in Hlt. exists 1. split; [lia |].
      rewrite append_cons. simpl String.append.
      rewrite int_digits_digit by lia. f_equal. lia.
    + apply Z.ltb_ge in Hlt.
      assert (0 ≤ n / 10 < 2 ^ (Z.of_nat fuel + 1)) as Hdiv.
      { split; [apply Z.div_pos; lia |].
        apply Z.div_lt_upper_bound; [lia |].
        replace (Z.of_nat (S fuel) + 1) with (Z.succ (Z.of_nat fuel + 1))
          in Hn by lia.
        rewrite Z.pow_succ_r in Hn by lia. lia. }
      rewrite append_assoc_string.
      destruct (IH (n / 10) after_digit acc
                  (String (digit_char (n mod 10)) EmptyString ++ rest)%string
                  Hdiv) as (k & Hk & ->).
      exists (k + 1). split; [lia |].
      rewrite append_cons. simpl String.append.
      pose proof (Z.mod_pos_bound n 10 ltac:(lia)).
      rewrite int_digits_digit by lia. f_equal.
      rewrite Z.pow_add_r by lia.
      pose proof (Z.div_mod n 10 ltac:(lia)). lia.
Qed.

Lemma str_nat_head (fuel : nat) (n : Z) :
  0 ≤ n →
  ∃ d s, 0 ≤ d ≤ 9 ∧ str_nat (S fuel) n = String (digit_char d) s.
Proof.
  revert n. induction fuel as [|fuel IH]; intros n Hn.
  - simpl. destruct (n <? 10) eqn:Hlt.
    + apply Z.ltb_lt in Hlt. exists n, EmptyString. split; [lia | done].
    + exists (n mod 10), EmptyString.
      pose proof (Z.mod_pos_bound n 10 ltac:(lia)). split; [lia | done].
  - change (str_nat (S (S fuel)) n)
      with (if n <? 10 then String (digit_char n) EmptyString
            else (str_nat (S fuel) (n / 10)
                  ++ String (digit_char (n mod 10)) EmptyString)%string).
    destruct (n <? 10) eqn:Hlt.
    + apply Z.ltb_lt in Hlt. exists n, EmptyString. split; [lia | done].
    + destruct (IH (n / 10)) as (d & s & Hd & ->);
        [apply Z.div_pos; lia |].
      exists d. eexists. split; [done |]. by rewrite append_cons.
Qed.

Lemma str_nat_plain (fuel : nat) (n : Z) :
  0 ≤ n → all_chars plain_char (str_nat fuel n) = true.
Proof.
  revert n. induction fuel as [|fuel IH]; intros n Hn; [done |].
  simpl. destruct (n <? 10) eqn:Hlt.
  - apply Z.ltb_lt in Hlt. simpl.
    destruct (digit_char_spec n ltac:(lia)) as (_ & _ & _ & _ & ->). done.
  - rewrite all_chars_append, IH by (apply Z.div_pos; lia). simpl.
    pose proof (Z.mod_pos_bound n 10 ltac:(lia)).
    destruct (digit_char_spec (n mod 10) ltac:(lia)) as (_ & _ & _ & _ & ->).
    done.
Qed.

Lemma str_int_plain (n : Z) : all_chars plain_char (str_int n) = true.
Proof.
  unfold str_int. destruct (n <? 0) eqn:Hneg.
  - apply Z.ltb_lt in Hneg.
    change (plain_char "-"
            && all_chars plain_char
                 (str_nat (S (Z.to_nat (Z.log2 (- n)))) (- n)) = true).
    rewrite str_nat_plain by lia. reflexivity.
  - apply Z.ltb_ge in Hneg. by apply str_nat_plain.
Qed.

Lemma rstrip_plain (s : string) :
  all_chars plain_char s = true → rstrip s = s.
Proof.
  induction s as [|c s IH]; [done |]. simpl.
  intros [Hc Hs]%andb_true_iff. rewrite (IH Hs).
  destruct s; [| done].
  unfold plain_char in Hc. apply andb_true_iff in Hc as [Hc _].
  by destruct (is_space c).
Qed.

Lemma strip_plain (s : string) :
  all_chars plain_char s = true → strip s = s.
Proof.
  intros Hs. unfold strip.
  assert (lstrip s = s) as ->; [| by apply rstrip_plain].
  destruct s as [|c s]; [done |]. simpl in *.
  apply andb_true_iff in Hs as [Hc _]. unfold plain_char in Hc.
  apply andb_true_iff in Hc as [Hc _]. by destruct (is_space c).
Qed.

Lemma split_plain (s : string) :
  all_chars plain_char s = true → split "," s = [s].
Proof.
  induction s as [|c s IH]; [done |]. simpl.
  intros [Hc Hs]%andb_true_iff. rewrite (IH Hs).
  unfold plain_char in Hc. apply andb_true_iff in Hc as [_ Hc].
  by destruct (Ascii.eqb c ",").
Qed.

Lemma split_plain_sep (s t : string) :
  all_chars plain_char s = true →
  split "," (s ++ String "," t)%string = s :: split "," t.
Proof.
  induction s as [|c s IH]; [done |].
  rewrite append_cons. simpl.
  intros [Hc Hs]%andb_true_iff. rewrite (IH Hs).
  unfold plain_char in Hc. apply andb_true_iff in Hc as [_ Hc].
  by destruct (Ascii.eqb c ",").
Qed.

Lemma py_int_unsigned (s : string) (c : ascii) (s' : string) :
  strip s = String c s' →
  Ascii.eqb c "-" = false → Ascii.eqb c "+" = false →
  py_int s = int_digits false 0 (String c s').
Proof.
  intros Hstrip Hminus Hplus. unfold py_int. rewrite Hstrip.
  destruct c as [[] [] [] [] [] [] [] []]; try reflexivity;
    simpl in Hminus, Hplus; discriminate.
Qed.

Lemma log2_fuel (n : Z) :
  0 ≤ n → 0 ≤ n < 2 ^ (Z.of_nat (Z.to_nat (Z.log2 n)) + 1).
Proof.
  intros Hn. split; [done |].
  rewrite Z2Nat.id by apply Z.log2_nonneg.
  destruct (decide (n = 0)) as [-> | Hne]; [by vm_compute |].
  pose proof (Z.log2_spec n ltac:(lia)) as [_ Hlt].
  by rewrite Z.add_1_r.
Qed.

Lemma int_digits_str_int (n : Z) :
  0 ≤ n →
  int_digits false 0 (str_nat (S (Z.to_nat (Z.log2 n))) n) = Some n.
Proof.
  intros Hn.
  destruct (int_digits_str_nat (Z.to_nat (Z.log2 n)) n false 0 EmptyString
              (log2_fuel n Hn)) as (k & _ & Hread).
  rewrite append_empty_r in Hread. rewrite Hread. simpl. f_equal; lia.
Qed.

(** Reading what [str] writes gives the integer back. *)
Lemma py_int_str_int (n : Z) : py_int (strip (str_int n)) = Some n.
Proof.
  rewrite (strip_plain _ (str_int_plain n)).
  pose proof (strip_plain _ (str_int_plain n)) as Hstrip.
  unfold str_int in *. destruct (n <? 0) eqn:Hneg.
  - apply Z.ltb_lt in Hneg. unfold py_int. rewrite Hstrip.
    rewrite int_digits_str_int by lia. simpl. f_equal. lia.
  - apply Z.ltb_ge in Hneg.
    destruct (str_nat_head (Z.to_nat (Z.log2 n)) n Hneg)
      as (d & s & Hd & Hhead).
    destruct (digit_char_spec d Hd) as (_ & _ & Hminus & Hplus & _).
    rewrite Hhead in Hstrip |- *.
    rewrite (py_int_unsigned _ _ _ Hstrip Hminus Hplus).
    rewrite <- Hhead. by apply int_digits_str_int.
Qed.

Lemma split_join_ints (l : list Z) :
  l ≠ [] → split "," (join_ints l) = str_int <$> l.
Proof.
  induction l as [|n l IH]; [done |]. intros _.
  destruct l as [|m l].
  - simpl. apply split_plain, str_int_plain.
  - change (join_ints (n :: m :: l))
      with (str_int n ++ String "," (join_ints (m :: l)))%string.
    rewrite split_plain_sep by apply str_int_plain.
    rewrite IH by done. done.
Qed.

Lemma parse_history_join_ints (l : list Z) :
  l ≠ [] → parse_history (join_ints l) = Some l.
Proof.
  intros Hne. unfold parse_history. rewrite split_join_ints by done.
  apply mapM_fmap_Forall_Some, Forall_forall.
  intros n _. apply py_int_str_int.
Qed.

Lemma join_ints_nonempty (l : list Z) : l ≠ [] → join_ints l ≠ EmptyString.
Proof.
  intros Hne Hempty.
  pose proof (split_join_ints l Hne) as Hsplit.
  pose proof (parse_history_join_ints l Hne) as Hparse.
  rewrite Hempty in Hparse. by vm_compute in Hparse.
Qed.

(** X27: Every list of integers that is not empty can be sent as a history:
    written in decimal and joined with commas it parses back to the same
    list (the integers are kept below the number of digits the
    interpreter accepts in a literal), and for a valid limit the endpoint answers with a success that
    reports the history as provided and counts the online candidates of
    exactly that list. *)
Theorem history_round_trip (sample : Z → list Item.t → list Item.t)
    (now : string) (service : RecommendationService) (user_id limit : Z)
    (history : list Z) :
  history ≠ [] →
  Forall (λ n, Z.abs n < 10 ^ 4300) history →
  parse_online_history (Some (join_ints history)) = Some history
  ∧ (1 ≤ limit ≤ 100 →
     ∃ response,
       App.get_recommendations sample now service user_id limit
         (Some (join_ints history)) = Ok response
       ∧ Statistics.online_history_provided
           (RecommendationResponse.statistics response) = true
       ∧ Statistics.online_count
           (RecommendationResponse.statistics response)
         = len (get_online_recommendations service history limit)).
Proof.
  intros Hne _.
  assert (parse_online_history (Some (join_ints history)) = Some history)
    as Hparse.
  { unfold parse_online_history.
    pose proof (join_ints_nonempty history Hne).
    destruct (join_ints history) eqn:Hjoin; [done |].
    simpl. rewrite <- Hjoin. by apply parse_history_join_ints. }
  split; [done |]. intros Hvalid.
  unfold App.get_recommendations.
  rewrite bool_decide_eq_false_2 by lia. rewrite Hparse.
  destruct (blend_limits_valid limit Hvalid) as [limits Hlimits].
  unfold blend_recommendations. rewrite Hlimits. simpl.
  eexists. split; [reflexivity |]. simpl. split; [| done].
  apply bool_decide_eq_true. destruct history; [done |].
  unfold len. simpl. lia.
Qed.

Lemma history_round_trip_witness :
  parse_online_history (Some "53404,33311009,178529"%string)
  = Some [53404; 33311009; 178529].
Proof.
  destruct (history_round_trip first_rows "now" service_abc 0 15
              [53404; 33311009; 178529]) as [Hparse _].
  - discriminate.
  - repeat constructor; by vm_compute.
  - exact Hparse.
Defined.

(** Track 20 is met first through seed 10, with score 0.3; the candidate
    of seed 11, with score 0.9, is dropped. *)
Example online_shared_track :
  get_online_recommendations service_shared [10; 11] 5
  = [similar_to 10 20 "T20" (Float.lit 3 10)]
  ∧ online_candidates service_shared
      [Similar.mk 10 20 (Float.lit 3 10); Similar.mk 11 20 (Float.lit 9 10)]
      [10; 11]
    = [ similar_to 10 20 "T20" (Float.lit 3 10);
        similar_to 11 20 "T20" (Float.lit 9 10) ].
Proof. by vm_compute. Qed.

Lemma online_keeps_first_occurrence_witness :
  ∃ df l1 l2,
    similar_df service_shared = Some df
    ∧ online_candidates service_shared df [10; 11]
      = l1 ++ similar_to 10 20 "T20" (Float.lit 3 10) :: l2
    ∧ 20 ∉ track_ids l1.
Proof.
  apply (online_keeps_first_occurrence service_shared [10; 11] 5
           (similar_to 10 20 "T20" (Float.lit 3 10))).
  assert (get_online_recommendations service_shared [10; 11] 5
          = [similar_to 10 20 "T20" (Float.lit 3 10)]) as -> by (by vm_compute).
  left.
Defined.
